(** * go-vee: a shallow embedding of the value types, the device state
      machine and the controller loops, with the properties of the
      specification stated over it.

    Conventions.
    - Go's [int] and [uint] are 64 bits wide; they are carried as [Z] and
      every wrap-around the source can perform is written out
      ([wrap_int], [wrap_uint64]).
    - A [[]byte] is a [list ascii]; Go's [string(b)] conversion is the
      identity on bytes, so functions of package [strconv] take the byte
      list directly.  Go strings that are only compared (IP addresses,
      command names) are [string].
    - A method with a pointer receiver takes the value the pointer targets
      and returns the value it leaves there.
    - Results of calls into the operating system or into [encoding/json]
      on received bytes are inputs of the step functions. *)

From Stdlib Require Import ZArith List String Ascii Bool Lia.
Import ListNotations.
Local Open Scope Z_scope.

(** ** Machine integers *)

Definition wrap_uint64 (z : Z) : Z := z mod 2 ^ 64.
Definition wrap_int (z : Z) : Z := (z + 2 ^ 63) mod 2 ^ 64 - 2 ^ 63.
Definition wrap_uint8 (z : Z) : Z := z mod 256.
Definition maxUint64 : Z := 2 ^ 64 - 1.

Definition byte_val (c : ascii) : Z := Z.of_N (N_of_ascii c).
Definition byte_of (z : Z) : ascii := ascii_of_N (Z.to_N (wrap_uint8 z)).
(** The byte 0x22, the double quote. *)
Definition dquote : ascii := "034"%char.
Definition bytes (s : string) : list ascii := list_ascii_of_string s.

(** ** Package [bytes]: the two functions [Version.UnmarshalJSON] calls *)

Module Bytes.

Fixpoint trimLeftByte (s : list ascii) (c : ascii) : list ascii :=
  match s with
  | [] => []
  | x :: r => if Ascii.eqb x c then trimLeftByte r c else s
  end.

Fixpoint trimRightByte (s : list ascii) (c : ascii) : list ascii :=
  match s with
  | [] => []
  | x :: r =>
      match trimRightByte r c with
      | [] => if Ascii.eqb x c then [] else [x]
      | r' => x :: r'
      end
  end.

(** [bytes.Trim(s, cutset)] for a cutset of one ASCII byte. *)
Definition Trim (s : list ascii) (c : ascii) : list ascii :=
  trimLeftByte (trimRightByte s c) c.

(** [bytes.Split(s, sep)] for a separator of one byte: one more piece
    than there are separators, empty pieces kept. *)
Fixpoint Split (s : list ascii) (sep : ascii) : list (list ascii) :=
  match s with
  | [] => [[]]
  | x :: r =>
      if Ascii.eqb x sep then [] :: Split r sep
      else match Split r sep with
           | h :: t => (x :: h) :: t
           | [] => [[x]]
           end
  end.

End Bytes.

(** ** Package [strconv] and the [%d] verb of [fmt] *)

Module Strconv.

Inductive NumError : Type := ErrSyntax | ErrRange.

(** The digit loop of the fast path of [Atoi]:
    [ch -= '0'; if ch > 9 { syntax error }; n = n*10 + int(ch)]. *)
Fixpoint atoi_loop (n : Z) (s : list ascii) : option Z :=
  match s with
  | [] => Some n
  | ch :: r =>
      let d := wrap_uint8 (byte_val ch - 48) in
      if 9 <? d then None else atoi_loop (wrap_int (n * 10 + d)) r
  end.

Definition lower (c : Z) : Z := Z.lor c 32.

(** The loop of [ParseUint] at base 10 and 64 bits. *)
Fixpoint parseUint_loop (n : Z) (s : list ascii) : Z * option NumError :=
  match s with
  | [] => (n, None)
  | ch :: r =>
      let c := byte_val ch in
      let digit :=
        if (48 <=? c) && (c <=? 57) then Some (c - 48)
        else if (97 <=? lower c) && (lower c <=? 122)
             then Some (wrap_uint8 (lower c - 97 + 10))
             else None in
      match digit with
      | None => (0, Some ErrSyntax)
      | Some d =>
          if 10 <=? d then (0, Some ErrSyntax)
          else if maxUint64 / 10 + 1 <=? n then (maxUint64, Some ErrRange)
          else
            let n10 := wrap_uint64 (n * 10) in
            let n1 := wrap_uint64 (n10 + d) in
            if (n1 <? n10) || (maxUint64 <? n1)
            then (maxUint64, Some ErrRange)
            else parseUint_loop n1 r
      end
  end.

Definition ParseUint (s : list ascii) : Z * option NumError :=
  match s with
  | [] => (0, Some ErrSyntax)
  | _ => parseUint_loop 0 s
  end.

(** [ParseInt(s, 10, 0)]. *)
Definition ParseInt (s : list ascii) : Z * option NumError :=
  match s with
  | [] => (0, Some ErrSyntax)
  | c0 :: r =>
      let neg := Ascii.eqb c0 "-" in
      let s' := if Ascii.eqb c0 "+" || neg then r else s in
      match ParseUint s' with
      | (_, Some ErrSyntax) => (0, Some ErrSyntax)
      | (un, _) =>
          let cutoff := 2 ^ 63 in
          if negb neg && (cutoff <=? un) then (cutoff - 1, Some ErrRange)
          else if neg && (cutoff <? un) then (- cutoff, Some ErrRange)
          else
            let n := wrap_int un in
            (if neg then wrap_int (- n) else n, None)
      end
  end.

(** [strconv.Atoi]: the fast path for 1 to 18 bytes, [ParseInt]
    otherwise. *)
Definition Atoi (s : list ascii) : Z * option NumError :=
  let sLen := Z.of_nat (List.length s) in
  if (0 <? sLen) && (sLen <? 19) then
    match s with
    | [] => (0, Some ErrSyntax)
    | c0 :: r =>
        let signed := Ascii.eqb c0 "-" || Ascii.eqb c0 "+" in
        let s' := if signed then r else s in
        if signed && (Z.of_nat (List.length s') <? 1) then (0, Some ErrSyntax)
        else
          match atoi_loop 0 s' with
          | None => (0, Some ErrSyntax)
          | Some n =>
              (if Ascii.eqb c0 "-" then wrap_int (- n) else n, None)
          end
    end
  else ParseInt s.

(** The digit loop of [fmt]'s integer formatting at base 10:
    [for u >= 10 { buf[i] = '0' + u%10; u /= 10 }; buf[i] = '0' + u].
    A [uint64] has at most 20 decimal digits, which bounds the loop. *)
Fixpoint fmt_digits (fuel : nat) (u : Z) (acc : list ascii) : list ascii :=
  match fuel with
  | O => acc
  | S f =>
      if 10 <=? u then fmt_digits f (u / 10) (byte_of (48 + u mod 10) :: acc)
      else byte_of (48 + u) :: acc
  end.

(** [fmt.Sprintf("%d", a)] for an [int]. *)
Definition fmt_d (a : Z) : list ascii :=
  let negative := a <? 0 in
  let u := if negative then wrap_uint64 (- a) else a in
  let ds := fmt_digits 20 u [] in
  if negative then "-"%char :: ds else ds.

End Strconv.

(** ** errors.go *)

Inductive error : Type :=
| ErrInvalidVersionFormat
| ErrNoDeviceFound
| Errorf (msg : string)                       (* fmt.Errorf without %w *)
| ErrorfW (prefix : string) (inner : error).  (* fmt.Errorf("...: %w", e) *)

Definition error_eqb_sentinel (e target : error) : bool :=
  match e, target with
  | ErrInvalidVersionFormat, ErrInvalidVersionFormat => true
  | ErrNoDeviceFound, ErrNoDeviceFound => true
  | _, _ => false
  end.

(** [errors.Is] for sentinel targets: walk the chain of wrapped errors. *)
Fixpoint errors_Is (e target : error) : bool :=
  error_eqb_sentinel e target ||
  match e with
  | ErrorfW _ inner => errors_Is inner target
  | _ => false
  end.

(** ** The value types (Version, State, Brightness, Color, ColorKelvin) *)

Record Version : Type := mkVersion { Major : Z; Minor : Z; Patch : Z }.

Definition NewVersion (major minor patch : Z) : Version :=
  {| Major := major; Minor := minor; Patch := patch |}.

Definition Version_zero : Version := NewVersion 0 0 0.

Definition Version_String (v : Version) : list ascii :=
  Strconv.fmt_d (Major v) ++ "."%char :: Strconv.fmt_d (Minor v)
    ++ "."%char :: Strconv.fmt_d (Patch v).

(** [Version.UnmarshalJSON], a pointer-receiver method: [v] is the value the receiver points to
    before the call; the result is the value it holds afterwards and the
    returned error. *)
Definition Version_UnmarshalJSON (v : Version) (b : list ascii)
  : Version * option error :=
  let val := Bytes.Split (Bytes.Trim b dquote) "."%char in
  match val with
  | [val0; val1; val2] =>
      let (major, err0) := Strconv.Atoi val0 in
      let v := {| Major := major; Minor := Minor v; Patch := Patch v |} in
      match err0 with
      | Some _ =>
          (Version_zero,
           Some (ErrorfW "invalid major version: " ErrInvalidVersionFormat))
      | None =>
          let (minor, err1) := Strconv.Atoi val1 in
          let v := {| Major := Major v; Minor := minor; Patch := Patch v |} in
          match err1 with
          | Some _ =>
              (Version_zero,
               Some (ErrorfW "invalid minor version: " ErrInvalidVersionFormat))
          | None =>
              let (patch, err2) := Strconv.Atoi val2 in
              let v :=
                {| Major := Major v; Minor := Minor v; Patch := patch |} in
              match err2 with
              | Some _ =>
                  (Version_zero,
                   Some (ErrorfW "invalid patch version: "
                           ErrInvalidVersionFormat))
              | None => (v, None)
              end
          end
      end
  | _ => (v, Some ErrInvalidVersionFormat)
  end.


Definition State := Z.       (* type State uint *)
Definition Brightness := Z.  (* type Brightness uint *)
Definition ColorKelvin := Z. (* type ColorKelvin uint *)

Definition NewState (value : Z) : State := value.

Definition State_String (s : State) : string :=
  if s =? 1 then "On"%string else "Off"%string.

(** The recursive call [NewBrightness(100)] takes the second branch. *)
Definition NewBrightness (value : Z) : Brightness :=
  if 100 <? value then 100 else value.

Record Color : Type := mkColor { R : Z; G : Z; B : Z }.

Definition Color_zero : Color := mkColor 0 0 0.

Definition NewColor (r g b : Z) : Color :=
  let r := if 255 <? r then 255 else r in
  let g := if 255 <? g then 255 else g in
  let b := if 255 <? b then 255 else b in
  {| R := r; G := g; B := b |}.

Definition NewColorKelvin (value : Z) : ColorKelvin :=
  let value := if value <? 2000 then 2000 else value in
  let value := if 9000 <? value then 9000 else value in
  value.

(** ** encoding/json, as far as the repository's own encoders need it *)

Module Json.

Definition hex_digit (z : Z) : ascii :=
  if z <? 10 then byte_of (48 + z) else byte_of (87 + z).

(** One byte of a string inside a JSON string literal ([escapeHTML] is
    on for [json.Marshal]).  Bytes from 0x80 on belong to multi-byte
    runes, which the encoders below never produce; they are copied. *)
Definition escape_byte (c : ascii) : list ascii :=
  let b := byte_val c in
  if (b =? 34) || (b =? 92) then ["\"%char; c]
  else if b =? 8 then bytes "\b"
  else if b =? 12 then bytes "\f"
  else if b =? 10 then bytes "\n"
  else if b =? 13 then bytes "\r"
  else if b =? 9 then bytes "\t"
  else if (b <? 32) || (b =? 60) || (b =? 62) || (b =? 38)
       then bytes "\u00" ++ [hex_digit (Z.shiftr b 4); hex_digit (Z.land b 15)]
       else [c].

(** [json.Marshal] of a Go string. *)
Definition marshal_string (s : list ascii) : list ascii :=
  dquote :: flat_map escape_byte s ++ [dquote].

(** A struct with one field: [{"name":value}]. *)
Definition object1 (name : string) (value : list ascii) : list ascii :=
  bytes "{" ++ marshal_string (bytes name) ++ bytes ":" ++ value ++ bytes "}".

End Json.

(** [Version.MarshalJSON]: [json.Marshal(v.String())]. *)
Definition Version_MarshalJSON (v : Version) : list ascii * option error :=
  (Json.marshal_string (Version_String v), None).

(** ** The wire types and [newAPIRequest] *)

Record wrapper : Type := mkWrapper { CMD : string; Data : list ascii }.

Record scanResponse : Type := mkScanResponse
  { sr_IP : string; sr_DeviceID : string; sr_SKU : string;
    sr_BleVersionHard : Version; sr_BleVersionSoft : Version;
    sr_WifiVersionHard : Version; sr_WifiVersionSoft : Version }.

Record devStatusResponse : Type := mkDevStatusResponse
  { ds_OnOff : State; ds_Brightness : Brightness;
    ds_Color : Color; ds_ColorKelvin : ColorKelvin }.

(** The request payloads handed to [newAPIRequest]. *)
Inductive request : Type :=
| scanRequest (AccountTopic : string)
| onOffRequest (Value : State)
| brightnessRequest (Value : Brightness)
| devStatusRequest.

(** [json.Marshal] of a request payload; none of these structs can fail
    to encode. *)
Definition json_Marshal_request (r : request) : list ascii * option error :=
  match r with
  | scanRequest topic =>
      (Json.object1 "account_topic" (Json.marshal_string (bytes topic)), None)
  | onOffRequest v => (Json.object1 "value" (Strconv.fmt_d v), None)
  | brightnessRequest v => (Json.object1 "value" (Strconv.fmt_d v), None)
  | devStatusRequest => (bytes "{}", None)
  end.

Definition newAPIRequest (cmd : string) (data : request)
  : option wrapper * option error :=
  match json_Marshal_request data with
  | (_, Some err) => (None, Some err)
  | (jsonData, None) => (Some {| CMD := cmd; Data := jsonData |}, None)
  end.

(** [Message.Payload] has type [any]; these are the dynamic types the
    repository stores in it. *)
Inductive payload : Type :=
| PWrapper (w : wrapper)
| PScan (r : scanResponse)
| PStatus (r : devStatusResponse).

Record Message : Type := mkMessage { IP : string; Payload : payload }.

(** ** Channels and [select]

    The outbound queue [command] is an unbuffered channel shared by every
    device and the scan scheduler; its only receiver is the dispatcher.
    What a sender can observe of it is whether it has been closed and
    whether the dispatcher is parked in its receive. *)

Record CommandChan : Type := mkCommandChan
  { cmd_closed : bool; cmd_receiver_parked : bool }.

(** A send case of a [select] can proceed when a receiver is parked, and
    also when the channel is closed, in which case proceeding panics. *)
Definition send_can_proceed (ch : CommandChan) : bool :=
  cmd_closed ch || cmd_receiver_parked ch.

(** How a call ends. *)
Inductive outcome : Type :=
| Returned (err : option error)
| Panicked.

Record SendResult : Type := mkSendResult
  { sent : option Message; result : outcome }.

(** [select { case command <- msg: return nil; default: return err }] *)
Definition select_send_or_default (ch : CommandChan) (msg : Message)
    (err : error) : SendResult :=
  if send_can_proceed ch then
    if cmd_closed ch then {| sent := None; result := Panicked |}
    else {| sent := Some msg; result := Returned None |}
  else {| sent := None; result := Returned (Some err) |}.

(** ** device.go *)

Definition time := Z.

(** The capacity of [statusUpdate]: [make(chan time.Time, 1)]. *)
Definition statusUpdate_cap : nat := 1.

Record Device : Type := mkDevice
  { seen : time;
    ip : string; deviceID : string; sku : string;
    bleVersionHard : Version; bleVersionSoft : Version;
    wifiVersionHard : Version; wifiVersionSoft : Version;
    state : State; brightness : Brightness;
    color : Color; colorKelvin : ColorKelvin;
    (* the values buffered in the channel [statusUpdate], oldest first *)
    statusUpdate : list time }.

(** One iteration of [Device.handler] on a message received from
    [d.response].  [waiter_parked] says whether a caller is blocked
    receiving from [statusUpdate]; [now] and [now'] are the two readings
    of the clock.  The second component is the value handed directly to a
    parked receiver. *)
Definition handler_step (now now' : time) (waiter_parked : bool)
    (d : Device) (resp : Message) : Device * option time :=
  match Payload resp with
  | PScan p =>
      ({| seen := now;
          ip := sr_IP p; deviceID := sr_DeviceID p; sku := sr_SKU p;
          bleVersionHard := sr_BleVersionHard p;
          bleVersionSoft := sr_BleVersionSoft p;
          wifiVersionHard := sr_WifiVersionHard p;
          wifiVersionSoft := sr_WifiVersionSoft p;
          state := state d; brightness := brightness d;
          color := color d; colorKelvin := colorKelvin d;
          statusUpdate := statusUpdate d |}, None)
  | PStatus p =>
      let upd (q : list time) :=
        {| seen := now;
           ip := ip d; deviceID := deviceID d; sku := sku d;
           bleVersionHard := bleVersionHard d;
           bleVersionSoft := bleVersionSoft d;
           wifiVersionHard := wifiVersionHard d;
           wifiVersionSoft := wifiVersionSoft d;
           state := ds_OnOff p; brightness := ds_Brightness p;
           color := ds_Color p; colorKelvin := ds_ColorKelvin p;
           statusUpdate := q |} in
      (* select { case d.statusUpdate <- time.Now(): default: } *)
      if waiter_parked then (upd (statusUpdate d), Some now')
      else if (List.length (statusUpdate d) <? statusUpdate_cap)%nat
           then (upd (statusUpdate d ++ [now']), None)
           else (upd (statusUpdate d), None)
  | PWrapper _ => (d, None)
  end.

Definition with_statusUpdate (d : Device) (q : list time) : Device :=
  {| seen := seen d;
     ip := ip d; deviceID := deviceID d; sku := sku d;
     bleVersionHard := bleVersionHard d; bleVersionSoft := bleVersionSoft d;
     wifiVersionHard := wifiVersionHard d;
     wifiVersionSoft := wifiVersionSoft d;
     state := state d; brightness := brightness d;
     color := color d; colorKelvin := colorKelvin d;
     statusUpdate := q |}.

Definition TurnOn (d : Device) (ch : CommandChan) : SendResult :=
  let cmd := onOffRequest 1 in
  match newAPIRequest "turn" cmd with
  | (Some w, None) =>
      select_send_or_default ch {| IP := ip d; Payload := PWrapper w |}
        (Errorf "failed to send TurnOn command: channel blocked or closed")
  | (_, err) => {| sent := None; result := Returned err |}
  end.

Definition TurnOff (d : Device) (ch : CommandChan) : SendResult :=
  let cmd := onOffRequest 0 in
  match newAPIRequest "turn" cmd with
  | (Some w, None) =>
      select_send_or_default ch {| IP := ip d; Payload := PWrapper w |}
        (Errorf "failed to send TurnOff command: channel blocked or closed")
  | (_, err) => {| sent := None; result := Returned err |}
  end.

Definition Toggle (d : Device) (ch : CommandChan) : SendResult :=
  if state d =? 1 then TurnOff d ch else TurnOn d ch.

(** What [RequestStatus] meets while it runs. *)
Inductive WaitEvent : Type :=
| EvStatus (t : time)   (* the worker sends on statusUpdate *)
| EvTimeout             (* the 5 second timer fires *)
| EvCancel.             (* the shared context is cancelled *)

Record RequestEnv : Type := mkRequestEnv
  { env_command : CommandChan;
    (* is ctx.Done() closed on entry of the first / the second select *)
    env_done_at_send : bool;
    env_done_at_wait : bool;
    (* the first select's choice when its send case and its ctx.Done()
       case can both proceed: take the send *)
    env_pick_first : bool;
    (* the second select's choice when a signal is buffered and the
       context is cancelled: take the signal *)
    env_pick_first_wait : bool;
    (* what wakes the second select when no case can proceed on entry *)
    env_wake : WaitEvent }.

Record RequestResult : Type := mkRequestResult
  { rr_device : Device; rr_sent : option Message; rr_result : outcome }.

Definition err_send_cancelled : error :=
  Errorf "context canceled while sending RequestStatus command".
Definition err_send_blocked : error :=
  Errorf "failed to send RequestStatus command: channel blocked or closed".
Definition err_wait_timeout : error :=
  Errorf "timeout waiting for device status response".
Definition err_wait_cancelled : error :=
  Errorf "context canceled while waiting for status response".

(** The second [select] of [RequestStatus], entered after the query was
    handed to the dispatcher.  The device returned differs from [d] only
    in what the caller itself takes out of [statusUpdate]; the fields the
    worker writes meanwhile are the business of [handler_step]. *)
Definition wait_status (d : Device) (e : RequestEnv) : Device * outcome :=
  (* a cancelled context stays cancelled *)
  let done := env_done_at_send e || env_done_at_wait e in
  match statusUpdate d, done with
  | t :: q, false => (with_statusUpdate d q, Returned None)
  | t :: q, true =>
      if env_pick_first_wait e then (with_statusUpdate d q, Returned None)
      else (d, Returned (Some err_wait_cancelled))
  | [], true => (d, Returned (Some err_wait_cancelled))
  | [], false =>
      match env_wake e with
      | EvStatus _ => (d, Returned None)
      | EvTimeout => (d, Returned (Some err_wait_timeout))
      | EvCancel => (d, Returned (Some err_wait_cancelled))
      end
  end.

Definition RequestStatus (d : Device) (e : RequestEnv) : RequestResult :=
  let cmd := devStatusRequest in
  match newAPIRequest "devStatus" cmd with
  | (Some w, None) =>
      let msg := {| IP := ip d; Payload := PWrapper w |} in
      let ch := env_command e in
      let send_chosen :=
        send_can_proceed ch && (negb (env_done_at_send e) || env_pick_first e) in
      if send_chosen then
        if cmd_closed ch
        then {| rr_device := d; rr_sent := None; rr_result := Panicked |}
        else
          let (d', r) := wait_status d e in
          {| rr_device := d'; rr_sent := Some msg; rr_result := r |}
      else if env_done_at_send e
      then {| rr_device := d; rr_sent := None;
              rr_result := Returned (Some err_send_cancelled) |}
      else {| rr_device := d; rr_sent := None;
              rr_result := Returned (Some err_send_blocked) |}
  | (_, err) => {| rr_device := d; rr_sent := None; rr_result := Returned err |}
  end.

(** ** controller.go *)

Record Controller : Type := mkController { devices : list Device }.

Definition NewController : Controller := {| devices := [] |}.

(** [DeviceByIP]: the position of the first device with that address.
    A position in [devices] stands for the pointer stored there. *)
Fixpoint find_ip (ds : list Device) (addr : string) (i : nat) : option nat :=
  match ds with
  | [] => None
  | d :: r => if String.eqb (ip d) addr then Some i else find_ip r addr (S i)
  end.

Definition DeviceByIP (c : Controller) (addr : string) : option nat * option error :=
  match find_ip (devices c) addr 0 with
  | Some i => (Some i, None)
  | None => (None, Some ErrNoDeviceFound)
  end.

Fixpoint find_id (ds : list Device) (id : string) (i : nat) : option nat :=
  match ds with
  | [] => None
  | d :: r => if String.eqb (deviceID d) id then Some i else find_id r id (S i)
  end.

Definition DeviceByID (c : Controller) (id : string) : option nat * option error :=
  match find_id (devices c) id 0 with
  | Some i => (Some i, None)
  | None => (None, Some ErrNoDeviceFound)
  end.

(** The device literal of the listener: only [ip] is set, and
    [statusUpdate] is a fresh empty channel. *)
Definition newDevice (srcAddr : string) : Device :=
  {| seen := 0;
     ip := srcAddr; deviceID := ""; sku := "";
     bleVersionHard := Version_zero; bleVersionSoft := Version_zero;
     wifiVersionHard := Version_zero; wifiVersionSoft := Version_zero;
     state := 0; brightness := 0; color := Color_zero; colorKelvin := 0;
     statusUpdate := [] |}.

(** A datagram read by the listener, with what [json.Unmarshal] makes of
    it: [dg_envelope] is the decoded outer envelope ([None] when decoding
    [buffer[:n]] fails), [dg_scan] and [dg_status] are the results of
    decoding [request.MSG.Data] as a scan or as a status payload. *)
Record Datagram : Type := mkDatagram
  { dg_src : string;
    dg_envelope : option wrapper;
    dg_scan : option scanResponse;
    dg_status : option devStatusResponse }.

Inductive ReadResult : Type :=
| ReadFailed            (* timeout or any other read error *)
| ReadOk (dg : Datagram).

Record ListenResult : Type := mkListenResult
  { lr_controller : Controller;
    (* a worker was started for the device at this position *)
    lr_spawned : option nat;
    (* the message sent on devices[i].response *)
    lr_routed : option (nat * Message) }.

(** One iteration of the listener loop, context not cancelled. *)
Definition listener_step (c : Controller) (r : ReadResult) : ListenResult :=
  match r with
  | ReadFailed => {| lr_controller := c; lr_spawned := None; lr_routed := None |}
  | ReadOk dg =>
      let srcAddr := dg_src dg in
      let '(c, device, spawned) :=
        match DeviceByIP c srcAddr with
        | (Some i, _) => (c, i, None)
        | (None, _) =>
            let i := List.length (devices c) in
            ({| devices := devices c ++ [newDevice srcAddr] |}, i, Some i)
        end in
      let drop := {| lr_controller := c; lr_spawned := spawned; lr_routed := None |} in
      match dg_envelope dg with
      | None => drop
      | Some request =>
          if String.eqb (CMD request) "scan" then
            match dg_scan dg with
            | None => drop
            | Some msg =>
                {| lr_controller := c; lr_spawned := spawned;
                   lr_routed := Some (device, {| IP := srcAddr; Payload := PScan msg |}) |}
            end
          else if String.eqb (CMD request) "devStatus" then
            match dg_status dg with
            | None => drop
            | Some msg =>
                {| lr_controller := c; lr_spawned := spawned;
                   lr_routed := Some (device, {| IP := srcAddr; Payload := PStatus msg |}) |}
            end
          else drop
      end
  end.

(** The datagram's outer envelope or the payload its command selects
    fails to decode. *)
Definition decode_fails (dg : Datagram) : bool :=
  match dg_envelope dg with
  | None => true
  | Some request =>
      if String.eqb (CMD request) "scan" then
        match dg_scan dg with None => true | Some _ => false end
      else if String.eqb (CMD request) "devStatus" then
        match dg_status dg with None => true | Some _ => false end
      else false
  end.

(** What the dispatcher meets for one message: the result of
    [json.Marshal(cmd.Payload)] and whether resolving, dialling and
    writing succeed. *)
Record DispatchEnv : Type := mkDispatchEnv
  { de_marshal : option (list ascii);
    de_resolve_ok : bool; de_dial_ok : bool; de_write_ok : bool }.

Inductive DispatchEffect : Type :=
| LogError (msg : string)
| UDPWrite (target : string) (data : list ascii) (ok : bool).

Definition multicast_ip : string := "239.255.255.250".

(** Lines 159 to 164 of controller.go. *)
Definition target_of (cmd : Message) : string :=
  if String.eqb (IP cmd) multicast_ip
  then (IP cmd ++ ":4001")%string
  else (IP cmd ++ ":4003")%string.

(** The body of the dispatcher loop for one message of the queue. *)
Definition dispatch_step (cmd : Message) (e : DispatchEnv) : list DispatchEffect :=
  match de_marshal e with
  | None => [LogError "Failed to marshal command"]
  | Some data =>
      let target := target_of cmd in
      if negb (de_resolve_ok e) then [LogError "Failed to resolve device address"]
      else if negb (de_dial_ok e) then [LogError "Failed to dial device address"]
      else if negb (de_write_ok e)
           then [UDPWrite target data false; LogError "Failed to send command"]
           else [UDPWrite target data true]
  end.

(** ** Predicates and sample values used by the statements *)

(** A discovery request as the scan scheduler addresses it. *)
Definition scan_message : Message :=
  {| IP := "239.255.255.250";
     Payload := PWrapper {| CMD := "scan"; Data := bytes "{}" |} |}.

(** The wire form of the payload of a [turn] command. *)
Definition turn_payload (value : string) : payload :=
  PWrapper {| CMD := "turn";
              Data := bytes "{" ++ dquote :: bytes "value" ++ dquote
                        :: bytes ":" ++ bytes value ++ bytes "}" |}.

(** A discovered device whose cached on/off state is [s]. *)
Definition lamp (s : State) : Device :=
  {| seen := 0; ip := "192.168.1.23"; deviceID := "1F:80"; sku := "H6159";
     bleVersionHard := Version_zero; bleVersionSoft := Version_zero;
     wifiVersionHard := Version_zero; wifiVersionSoft := Version_zero;
     state := s; brightness := 80; color := Color_zero; colorKelvin := 0;
     statusUpdate := [] |}.

(** The outbound queue with the dispatcher parked in its receive, and
    with the dispatcher busy sending. *)
Definition queue_ready : CommandChan :=
  {| cmd_closed := false; cmd_receiver_parked := true |}.
Definition queue_blocked : CommandChan :=
  {| cmd_closed := false; cmd_receiver_parked := false |}.

(** A datagram that is not JSON, from an address never seen before. *)
Definition stray_datagram : Datagram :=
  {| dg_src := "10.0.0.7"; dg_envelope := None;
     dg_scan := None; dg_status := None |}.

(** The status response of the wire tests. *)
Definition status_on : devStatusResponse :=
  {| ds_OnOff := 1; ds_Brightness := 100;
     ds_Color := mkColor 255 0 0; ds_ColorKelvin := 7200 |}.

Definition status_message : Message :=
  {| IP := "192.168.1.23"; Payload := PStatus status_on |}.

(** An environment in which the dispatcher takes the query, nothing is
    cancelled and no response arrives before the timer fires. *)
Definition env_no_response : RequestEnv :=
  {| env_command := queue_ready; env_done_at_send := false;
     env_done_at_wait := false; env_pick_first := true;
     env_pick_first_wait := true;
     env_wake := EvTimeout |}.

(** The query [RequestStatus] puts on the outbound queue. *)
Definition status_query (d : Device) : Message :=
  {| IP := ip d; Payload := PWrapper {| CMD := "devStatus"; Data := bytes "{}" |} |}.


(** The bytes 0x30 to 0x39. *)
Definition is_digit (c : ascii) : bool :=
  (48 <=? byte_val c) && (byte_val c <=? 57).

(** A decimal integer in writing: an optional sign, then one or more
    digits. *)
Definition is_decimal (s : list ascii) : bool :=
  match s with
  | [] => false
  | c :: r =>
      if Ascii.eqb c "-" || Ascii.eqb c "+"
      then match r with [] => false | _ => forallb is_digit r end
      else forallb is_digit s
  end.

(** The bytes [Version.String] writes for non-negative components. *)
Definition is_plain (c : ascii) : bool := is_digit c || Ascii.eqb c ".".

(** The largest value of a Go [int]. *)
Definition maxInt : Z := 2 ^ 63 - 1.

(** The device the listener has just registered for 192.168.1.23, after
    its worker applied a status response that nobody was waiting for. *)
Definition unawaited_status_applied : Device :=
  fst (handler_step 10 11 false (newDevice "192.168.1.23") status_message).

(** ** The remaining command methods of device.go *)

(** [colorRequest], the payload of [colorwc] and [colorKelvin]. *)
Record colorRequest : Type := mkColorRequest
  { cr_Color : Color; cr_Kelvin : ColorKelvin }.

(** One member of a JSON object, and an object of several members. *)
Definition json_member (name : string) (value : list ascii) : list ascii :=
  Json.marshal_string (bytes name) ++ bytes ":" ++ value.

Fixpoint json_members (ms : list (list ascii)) : list ascii :=
  match ms with
  | [] => []
  | [m] => m
  | m :: r => m ++ bytes "," ++ json_members r
  end.

Definition json_object (ms : list (list ascii)) : list ascii :=
  bytes "{" ++ json_members ms ++ bytes "}".

(** [json.Marshal] of a [Color] (fields tagged r, g, b) and of a
    [colorRequest] (fields tagged color, colorTemInKelvin). *)
Definition json_Marshal_Color (c : Color) : list ascii :=
  json_object [json_member "r" (Strconv.fmt_d (R c));
               json_member "g" (Strconv.fmt_d (G c));
               json_member "b" (Strconv.fmt_d (B c))].

Definition json_Marshal_colorRequest (r : colorRequest)
  : list ascii * option error :=
  (json_object [json_member "color" (json_Marshal_Color (cr_Color r));
                json_member "colorTemInKelvin" (Strconv.fmt_d (cr_Kelvin r))],
   None).

(** [newAPIRequest] at the payload type [colorRequest]. *)
Definition newAPIRequest_color (cmd : string) (data : colorRequest)
  : option wrapper * option error :=
  match json_Marshal_colorRequest data with
  | (_, Some err) => (None, Some err)
  | (jsonData, None) => (Some {| CMD := cmd; Data := jsonData |}, None)
  end.

Definition SetBrightness (d : Device) (b : Brightness) (ch : CommandChan)
  : SendResult :=
  let cmd := brightnessRequest b in
  match newAPIRequest "brightness" cmd with
  | (Some w, None) =>
      select_send_or_default ch {| IP := ip d; Payload := PWrapper w |}
        (Errorf "failed to send SetBrightness command: channel blocked or closed")
  | (_, err) => {| sent := None; result := Returned err |}
  end.

Definition SetColor (d : Device) (c : Color) (ch : CommandChan) : SendResult :=
  let cmd := {| cr_Color := c; cr_Kelvin := 0 |} in
  match newAPIRequest_color "colorwc" cmd with
  | (Some w, None) =>
      select_send_or_default ch {| IP := ip d; Payload := PWrapper w |}
        (Errorf "failed to send SetColor command: channel blocked or closed")
  | (_, err) => {| sent := None; result := Returned err |}
  end.

Definition SetColorKelvin (d : Device) (k : ColorKelvin) (ch : CommandChan)
  : SendResult :=
  let cmd := {| cr_Color := Color_zero; cr_Kelvin := k |} in
  match newAPIRequest_color "colorKelvin" cmd with
  | (Some w, None) =>
      select_send_or_default ch {| IP := ip d; Payload := PWrapper w |}
        (Errorf "failed to send SetColorKelvin command: channel blocked or closed")
  | (_, err) => {| sent := None; result := Returned err |}
  end.

(** The public command methods, by name. *)
Inductive command : Type :=
| CmdTurnOn
| CmdTurnOff
| CmdToggle
| CmdSetBrightness (b : Brightness)
| CmdSetColor (c : Color)
| CmdSetColorKelvin (k : ColorKelvin).

Definition run_command (k : command) (d : Device) (ch : CommandChan)
  : SendResult :=
  match k with
  | CmdTurnOn => TurnOn d ch
  | CmdTurnOff => TurnOff d ch
  | CmdToggle => Toggle d ch
  | CmdSetBrightness b => SetBrightness d b ch
  | CmdSetColor c => SetColor d c ch
  | CmdSetColorKelvin k => SetColorKelvin d k ch
  end.

(** ** A device over time *)

(** What happens to one device: its worker applies a routed message, or a
    caller runs [RequestStatus]. *)
Inductive DeviceEvent : Type :=
| Applies (now now' : time) (waiter_parked : bool) (msg : Message)
| Requests (e : RequestEnv).

Definition device_step (d : Device) (ev : DeviceEvent) : Device :=
  match ev with
  | Applies now now' parked msg => fst (handler_step now now' parked d msg)
  | Requests e => rr_device (RequestStatus d e)
  end.

Definition device_run (d : Device) (evs : list DeviceEvent) : Device :=
  fold_left device_step evs d.

(** ** The registry seen through its pointers *)

(** The registry holds pointers, so what a worker writes to its device is
    what a later lookup reads: the device at position [i] is replaced. *)
Fixpoint update_nth (i : nat) (f : Device -> Device) (ds : list Device)
  : list Device :=
  match ds, i with
  | [], _ => []
  | d :: r, O => f d :: r
  | d :: r, S j => d :: update_nth j f r
  end.

(** The worker of [devices[i]] receives the routed message and applies
    it. *)
Definition worker_apply (now now' : time) (waiter_parked : bool)
    (c : Controller) (routed : nat * Message) : Controller :=
  {| devices :=
       update_nth (fst routed)
         (fun d => fst (handler_step now now' waiter_parked d (snd routed)))
         (devices c) |}.

(** One datagram, from the read to the worker's update. *)
Definition receive (now now' : time) (waiter_parked : bool)
    (c : Controller) (dg : Datagram) : Controller :=
  let r := listener_step c (ReadOk dg) in
  match lr_routed r with
  | Some routed => worker_apply now now' waiter_parked (lr_controller r) routed
  | None => lr_controller r
  end.

(** ** The scan scheduler *)

(** How a blocking send [c.command <- msg] ends: the dispatcher takes the
    message, or the queue is closed, before the send or while it waits,
    and the send panics.  [Start] closes the queue after cancellation
    without waiting for the scheduler. *)
Inductive SendEnd : Type :=
| Taken
| QueueClosed.

Inductive SchedulerEvent : Type :=
| Tick (send : SendEnd)  (* ticker.C delivers; the send that follows *)
| Cancel.                (* ctx.Done() is closed *)

(** Where the goroutine is when the events are used up. *)
Inductive SchedulerEnd : Type :=
| Running   (* still in its select *)
| Stopped   (* returned on ctx.Done() *)
| Crashed.  (* panicked in a send on the closed queue *)

(** The [for]/[select] loop: one send per tick until cancellation. *)
Fixpoint scheduler_loop (msg : Message) (evs : list SchedulerEvent)
  : list Message * SchedulerEnd :=
  match evs with
  | [] => ([], Running)
  | Cancel :: _ => ([], Stopped)
  | Tick QueueClosed :: _ => ([], Crashed)
  | Tick Taken :: r =>
      let (ms, e) := scheduler_loop msg r in (msg :: ms, e)
  end.

(** The scheduler goroutine: the messages the dispatcher took from it, in
    order, and how it ended.  [first] is the end of the send made at
    start. *)
Definition scan_scheduler (first : SendEnd) (evs : list SchedulerEvent)
  : list Message * SchedulerEnd :=
  match newAPIRequest "scan" (scanRequest "reserve") with
  | (Some scan, None) =>
      let msg := {| IP := "239.255.255.250"; Payload := PWrapper scan |} in
      match first with
      | QueueClosed => ([], Crashed)
      | Taken => let (ms, e) := scheduler_loop msg evs in (msg :: ms, e)
      end
  | (_, _) => ([], Stopped)
  end.

(** ** More predicates used by the statements *)

(** The smallest value of a Go [int]. *)
Definition minInt : Z := - 2 ^ 63.

Definition is_int (z : Z) : Prop := minInt <= z <= maxInt.

(** The bytes [Version.String] can write: digits, the dot, the minus. *)
Definition is_version_byte (c : ascii) : bool :=
  is_plain c || Ascii.eqb c "-".

(** The identity a scan response fills in, and the state a status
    response fills in. *)
Definition identity_of (d : Device)
  : string * string * string * (Version * Version * Version * Version) :=
  (ip d, deviceID d, sku d,
   (bleVersionHard d, bleVersionSoft d, wifiVersionHard d, wifiVersionSoft d)).

Definition light_of (d : Device) : State * Brightness * Color * ColorKelvin :=
  (state d, brightness d, color d, colorKelvin d).

Definition is_status (m : Message) : bool :=
  match Payload m with PStatus _ => true | _ => false end.

Definition is_scan (m : Message) : bool :=
  match Payload m with PScan _ => true | _ => false end.

(** The bytes of one component as [Version.String] writes it. *)
Definition is_component_byte (c : ascii) : bool :=
  is_digit c || Ascii.eqb c "-".

(** Is the event the worker applying a status, or a scan, response? *)
Definition applies_status (ev : DeviceEvent) : bool :=
  match ev with
  | Applies _ _ _ m => is_status m
  | Requests _ => false
  end.

Definition applies_scan (ev : DeviceEvent) : bool :=
  match ev with
  | Applies _ _ _ m => is_scan m
  | Requests _ => false
  end.

(** The ticks whose send the dispatcher took, up to the first
    cancellation or the first send on the closed queue. *)
Fixpoint taken_ticks (evs : list SchedulerEvent) : nat :=
  match evs with
  | Tick Taken :: r => S (taken_ticks r)
  | _ => O
  end.

(** Does a send meet the closed queue before any cancellation? *)
Fixpoint meets_closed (evs : list SchedulerEvent) : bool :=
  match evs with
  | Tick Taken :: r => meets_closed r
  | Tick QueueClosed :: _ => true
  | _ => false
  end.

(** Is the scheduler cancelled before any send meets the closed queue? *)
Fixpoint meets_cancel (evs : list SchedulerEvent) : bool :=
  match evs with
  | Tick Taken :: r => meets_cancel r
  | Cancel :: _ => true
  | _ => false
  end.

(** The discovery request on the wire. *)
Definition scan_request_message : Message :=
  {| IP := "239.255.255.250";
     Payload :=
       PWrapper {| CMD := "scan";
                   Data := bytes "{" ++ dquote :: bytes "account_topic"
                             ++ dquote :: bytes ":" ++ dquote
                             :: bytes "reserve" ++ dquote :: bytes "}" |} |}.

(** The two kinds of trace the dispatcher leaves. *)
Definition is_write (eff : DispatchEffect) : bool :=
  match eff with UDPWrite _ _ _ => true | LogError _ => false end.

Definition is_log (eff : DispatchEffect) : bool :=
  match eff with LogError _ => true | UDPWrite _ _ _ => false end.

(** The loop shared by [DeviceByIP] and [DeviceByID]: the position of the
    first device whose [key] is [x], counting from [i]. *)
Fixpoint find_by (key : Device -> string) (ds : list Device) (x : string)
    (i : nat) : option nat :=
  match ds with
  | [] => None
  | d :: r => if String.eqb (key d) x then Some i else find_by key r x (S i)
  end.

(** The method names of the two commands the listener routes. *)
Definition is_routed_cmd (cmd : string) : bool :=
  String.eqb cmd "scan" || String.eqb cmd "devStatus".

(** * Properties *)

(** ** Value constructors *)

(** C7: the kelvin constructor clamps every input to [2000, 9000]: inputs
    below 2000 (such as 500) give 2000, inputs above 9000 (such as 20000)
    give 9000, inputs inside the range come back unchanged. *)
Theorem NewColorKelvin_clamps : forall value : Z,
  2000 <= NewColorKelvin value <= 9000 /\
  (value < 2000 -> NewColorKelvin value = 2000) /\
  (9000 < value -> NewColorKelvin value = 9000) /\
  (2000 <= value <= 9000 -> NewColorKelvin value = value) /\
  NewColorKelvin 500 = 2000 /\ NewColorKelvin 20000 = 9000.
Proof.
  intro value. unfold NewColorKelvin.
  destruct (Z.ltb_spec value 2000) as [Hlo | Hlo].
  - repeat split; try reflexivity; try lia; intros; cbn in *; lia.
  - destruct (Z.ltb_spec 9000 value) as [Hhi | Hhi];
      repeat split; try reflexivity; lia.
Qed.

Lemma NewColorKelvin_clamps_witness :
  NewColorKelvin 500 = 2000 /\ NewColorKelvin 20000 = 9000 /\
  NewColorKelvin 6500 = 6500.
Proof.
  split; [| split].
  - apply (proj1 (proj2 (NewColorKelvin_clamps 500))). lia.
  - apply (proj1 (proj2 (proj2 (NewColorKelvin_clamps 20000)))). lia.
  - apply (proj1 (proj2 (proj2 (proj2 (NewColorKelvin_clamps 6500))))). lia.
Defined.

(** ** Dispatcher *)

(** C6: for every message taken from the outbound queue the target port
    depends on the destination IP alone: the multicast discovery address
    239.255.255.250 goes to port 4001, every other address to port 4003.
    Once the payload is encoded and the target resolved and dialled, the
    dispatcher writes the encoded payload to that target, and it never
    writes to any other. *)
Theorem dispatcher_port_by_ip : forall (cmd : Message) (e : DispatchEnv),
  (IP cmd = "239.255.255.250"%string ->
   target_of cmd = "239.255.255.250:4001"%string) /\
  (IP cmd <> "239.255.255.250"%string ->
   target_of cmd = (IP cmd ++ ":4003")%string) /\
  (forall cmd' : Message, IP cmd' = IP cmd -> target_of cmd' = target_of cmd) /\
  (forall t data ok,
      In (UDPWrite t data ok) (dispatch_step cmd e) -> t = target_of cmd) /\
  (forall data,
      de_marshal e = Some data ->
      de_resolve_ok e = true -> de_dial_ok e = true ->
      In (UDPWrite
            (if String.eqb (IP cmd) "239.255.255.250"
             then "239.255.255.250:4001"%string
             else (IP cmd ++ ":4003")%string)
            data (de_write_ok e))
         (dispatch_step cmd e)).
Proof.
  intros cmd e. unfold target_of, multicast_ip.
  split; [| split; [| split; [| split]]].
  - intros ->. reflexivity.
  - intros Hne. destruct (String.eqb_spec (IP cmd) "239.255.255.250");
      [contradiction | reflexivity].
  - intros cmd' ->. reflexivity.
  - intros t data ok. unfold dispatch_step.
    destruct (de_marshal e) as [bs |]; cbn.
    + destruct (de_resolve_ok e), (de_dial_ok e), (de_write_ok e); cbn;
        intros H; repeat (destruct H as [H | H]; try discriminate H);
        try contradiction; inversion H; reflexivity.
    + intros [H | []]. discriminate H.
  - intros data Hm Hr Hd. unfold dispatch_step, target_of, multicast_ip.
    rewrite Hm, Hr, Hd. cbn [negb].
    destruct (String.eqb_spec (IP cmd) "239.255.255.250") as [E | E];
      [rewrite E |]; destruct (de_write_ok e); cbn; auto.
Qed.

Lemma dispatcher_port_by_ip_witness :
  In (UDPWrite "239.255.255.250:4001" (bytes "{}") true)
     (dispatch_step scan_message (mkDispatchEnv (Some (bytes "{}")) true true true)) /\
  In (UDPWrite "192.168.1.23:4003" (bytes "{}") true)
     (dispatch_step {| IP := "192.168.1.23"; Payload := Payload scan_message |}
        (mkDispatchEnv (Some (bytes "{}")) true true true)) /\
  target_of {| IP := "192.168.1.23"; Payload := Payload scan_message |}
    = "192.168.1.23:4003"%string.
Proof.
  split; [| split].
  - apply (proj2 (proj2 (proj2 (proj2 (dispatcher_port_by_ip scan_message
             (mkDispatchEnv (Some (bytes "{}")) true true true)))))
             (bytes "{}")); reflexivity.
  - apply (proj2 (proj2 (proj2 (proj2 (dispatcher_port_by_ip
             {| IP := "192.168.1.23"; Payload := Payload scan_message |}
             (mkDispatchEnv (Some (bytes "{}")) true true true)))))
             (bytes "{}")); reflexivity.
  - apply (proj1 (proj2 (dispatcher_port_by_ip
                    {| IP := "192.168.1.23"; Payload := Payload scan_message |}
                    (mkDispatchEnv None true true true)))).
    cbn. discriminate.
Defined.

(** ** Device commands *)

Lemma TurnOff_sent : forall d ch m,
  sent (TurnOff d ch) = Some m ->
  m = {| IP := ip d; Payload := turn_payload "0" |}.
Proof.
  intros d ch m. unfold TurnOff, select_send_or_default. cbn.
  destruct (send_can_proceed ch); [destruct (cmd_closed ch) |]; cbn;
    intros H; inversion H; reflexivity.
Qed.

Lemma TurnOn_sent : forall d ch m,
  sent (TurnOn d ch) = Some m ->
  m = {| IP := ip d; Payload := turn_payload "1" |}.
Proof.
  intros d ch m. unfold TurnOn, select_send_or_default. cbn.
  destruct (send_can_proceed ch); [destruct (cmd_closed ch) |]; cbn;
    intros H; inversion H; reflexivity.
Qed.

(** C10: Toggle sends a turn-off command only when the cached on/off
    state is exactly 1; for every other cached value, values above 1
    included, it sends a turn-on command. *)
Theorem Toggle_direction : forall (d : Device) (ch : CommandChan),
  (state d = 1 -> Toggle d ch = TurnOff d ch) /\
  (state d <> 1 -> Toggle d ch = TurnOn d ch) /\
  (forall m, sent (Toggle d ch) = Some m ->
     (state d = 1 -> m = {| IP := ip d; Payload := turn_payload "0" |}) /\
     (state d <> 1 -> m = {| IP := ip d; Payload := turn_payload "1" |})) /\
  (cmd_closed ch = false -> cmd_receiver_parked ch = true ->
     sent (Toggle d ch) =
       Some {| IP := ip d;
               Payload := turn_payload (if state d =? 1 then "0" else "1") |}).
Proof.
  intros d ch. unfold Toggle.
  destruct (Z.eqb_spec (state d) 1) as [E | E]; repeat split;
    try reflexivity; try contradiction; try lia.
  - intros _. now apply TurnOff_sent with (ch := ch).
  - intros Hc Hp. unfold TurnOff, select_send_or_default, send_can_proceed.
    cbn. rewrite Hc, Hp. reflexivity.
  - intros _. now apply TurnOn_sent with (ch := ch).
  - intros Hc Hp. unfold TurnOn, select_send_or_default, send_can_proceed.
    cbn. rewrite Hc, Hp. reflexivity.
Qed.

Lemma Toggle_direction_witness :
  sent (Toggle (lamp 1) queue_ready)
    = Some {| IP := "192.168.1.23"; Payload := turn_payload "0" |} /\
  Toggle (lamp 2) queue_ready = TurnOn (lamp 2) queue_ready.
Proof.
  split.
  - apply (proj2 (proj2 (proj2 (Toggle_direction (lamp 1) queue_ready))));
      reflexivity.
  - apply (proj1 (proj2 (Toggle_direction (lamp 2) queue_ready))).
    cbn. lia.
Defined.

(** ** Listener *)

(** C1 as stated fails: an undecodable datagram from an address the
    registry does not know leaves a new device in the registry, because
    the listener registers the source before it decodes the datagram. *)
Lemma listener_registers_before_decoding :
  decode_fails stray_datagram = true /\
  devices NewController = [] /\
  devices (lr_controller (listener_step NewController (ReadOk stray_datagram)))
    = [newDevice "10.0.0.7"] /\
  lr_spawned (listener_step NewController (ReadOk stray_datagram)) = Some 0%nat /\
  ~ (forall c dg, decode_fails dg = true ->
       lr_controller (listener_step c (ReadOk dg)) = c).
Proof.
  repeat split.
  intro H. specialize (H NewController stray_datagram eq_refl).
  discriminate H.
Qed.

Lemma listener_drop_shape : forall c dg,
  decode_fails dg = true ->
  listener_step c (ReadOk dg) =
    match find_ip (devices c) (dg_src dg) 0 with
    | Some _ => {| lr_controller := c; lr_spawned := None; lr_routed := None |}
    | None =>
        {| lr_controller := {| devices := devices c ++ [newDevice (dg_src dg)] |};
           lr_spawned := Some (List.length (devices c)); lr_routed := None |}
    end.
Proof.
  intros c dg. unfold decode_fails, listener_step, DeviceByIP.
  destruct (dg_envelope dg) as [w |].
  - destruct (String.eqb (CMD w) "scan").
    + destruct (dg_scan dg); [discriminate |].
      intros _. destruct (find_ip (devices c) (dg_src dg) 0); reflexivity.
    + destruct (String.eqb (CMD w) "devStatus"); [| discriminate].
      destruct (dg_status dg); [discriminate |].
      intros _. destruct (find_ip (devices c) (dg_src dg) 0); reflexivity.
  - intros _. destruct (find_ip (devices c) (dg_src dg) 0); reflexivity.
Qed.

(** C1, amended: a datagram whose envelope or payload fails to decode is
    dropped: no message is routed to any worker and no device already in
    the registry is changed.  When the source address is registered the
    controller is left as it was; when it is not, one device holding only
    that address is appended and its worker started. *)
Theorem listener_drop_undecodable : forall (c : Controller) (dg : Datagram),
  decode_fails dg = true ->
  let r := listener_step c (ReadOk dg) in
  lr_routed r = None /\
  firstn (List.length (devices c)) (devices (lr_controller r)) = devices c /\
  (forall i, find_ip (devices c) (dg_src dg) 0 = Some i ->
     lr_controller r = c /\ lr_spawned r = None) /\
  (find_ip (devices c) (dg_src dg) 0 = None ->
     devices (lr_controller r) = devices c ++ [newDevice (dg_src dg)] /\
     lr_spawned r = Some (List.length (devices c))).
Proof.
  intros c dg Hfail r. subst r. rewrite (listener_drop_shape c dg Hfail).
  destruct (find_ip (devices c) (dg_src dg) 0) as [i |]; cbn.
  - repeat split; try discriminate.
    apply firstn_all.
  - repeat split; try discriminate.
    rewrite firstn_app, firstn_all, Nat.sub_diag. cbn. apply app_nil_r.
Qed.

Lemma listener_drop_undecodable_witness :
  lr_routed (listener_step {| devices := [newDevice "10.0.0.7"] |}
               (ReadOk stray_datagram)) = None.
Proof.
  apply (listener_drop_undecodable {| devices := [newDevice "10.0.0.7"] |}
           stray_datagram).
  reflexivity.
Defined.

(** ** Status requests *)

(** C2 as stated fails: a status response applied while nobody waits
    leaves its signal in the one-slot buffer of [statusUpdate], and a
    later RequestStatus returns success by taking it although no response
    follows its own query. *)
Lemma stale_signal_completes_request :
  statusUpdate (newDevice "192.168.1.23") = [] /\
  snd (handler_step 10 11 false (newDevice "192.168.1.23") status_message)
    = None /\
  statusUpdate unawaited_status_applied = [11] /\
  rr_result (RequestStatus unawaited_status_applied env_no_response)
    = Returned None /\
  statusUpdate (rr_device (RequestStatus unawaited_status_applied env_no_response))
    = [].
Proof. repeat split. Qed.

(** C2, amended: when the worker applies a status response and no caller
    is blocked in RequestStatus, the completion signal is not handed to
    anyone; it is kept in the single slot of the channel when that slot
    is free and dropped only when the slot is already taken, so the
    channel holds what it held plus at most this one signal. *)
Theorem status_signal_single_slot :
  forall (now now' : time) (d : Device) (src : string) (p : devStatusResponse),
  let d' := fst (handler_step now now' false d {| IP := src; Payload := PStatus p |}) in
  snd (handler_step now now' false d {| IP := src; Payload := PStatus p |}) = None /\
  (statusUpdate d = [] -> statusUpdate d' = [now']) /\
  (statusUpdate d <> [] -> statusUpdate d' = statusUpdate d) /\
  ((List.length (statusUpdate d) <= statusUpdate_cap)%nat ->
   (List.length (statusUpdate d') <= statusUpdate_cap)%nat).
Proof.
  intros now now' d src p. cbn.
  destruct (statusUpdate d) as [| t q] eqn:Hq; cbn.
  - split; [reflexivity |]. split; [reflexivity |]. split; [congruence |].
    intros _. unfold statusUpdate_cap. lia.
  - split; [reflexivity |]. split; [congruence |]. split; [reflexivity |].
    intros H. exact H.
Qed.

Lemma status_signal_single_slot_witness :
  statusUpdate unawaited_status_applied = [11] /\
  statusUpdate (fst (handler_step 12 13 false unawaited_status_applied
                       status_message)) = [11].
Proof.
  split.
  - apply (proj1 (proj2 (status_signal_single_slot 10 11
                           (newDevice "192.168.1.23") "192.168.1.23" status_on))).
    reflexivity.
  - apply (proj1 (proj2 (proj2 (status_signal_single_slot 12 13
                                  unawaited_status_applied "192.168.1.23"
                                  status_on)))).
    discriminate.
Defined.




(** ** Version strings *)

(** C5: decoding "1.00.10" succeeds with major 1, minor 0, patch 10,
    whatever the target held, with or without the JSON quotes; encoding
    that triple gives "1.0.10", so the leading zeros are gone after a
    decode-encode round trip. *)
Theorem version_leading_zeros_dropped : forall v0 : Version,
  Version_UnmarshalJSON v0 (bytes "1.00.10") = (NewVersion 1 0 10, None) /\
  Version_UnmarshalJSON v0 (dquote :: bytes "1.00.10" ++ [dquote])
    = (NewVersion 1 0 10, None) /\
  Version_String (NewVersion 1 0 10) = bytes "1.0.10" /\
  Version_MarshalJSON (NewVersion 1 0 10)
    = (dquote :: bytes "1.0.10" ++ [dquote], None) /\
  Version_String (fst (Version_UnmarshalJSON v0 (bytes "1.00.10")))
    <> bytes "1.00.10".
Proof.
  intros [a b c]. repeat split. vm_compute. discriminate.
Qed.

Lemma wrong_component_count_keeps_target : forall (v : Version) (b : list ascii),
  List.length (Bytes.Split (Bytes.Trim b dquote) ".") <> 3%nat ->
  Version_UnmarshalJSON v b = (v, Some ErrInvalidVersionFormat).
Proof.
  intros v b H. unfold Version_UnmarshalJSON.
  destruct (Bytes.Split (Bytes.Trim b dquote) ".") as [| a0 [| a1 [| a2 [| a3 r]]]];
    try reflexivity.
  cbn in H. contradiction.
Qed.

(** C3 fails on the code: decoding "1.2" returns the version-format error
    but leaves a target holding 7.8.9 as it was; the branch for a wrong
    number of components returns before any field is written. *)
Theorem short_version_keeps_target :
  Version_UnmarshalJSON (NewVersion 7 8 9) (bytes "1.2")
    = (NewVersion 7 8 9, Some ErrInvalidVersionFormat) /\
  Version_UnmarshalJSON Version_zero (bytes "1.2")
    = (Version_zero, Some ErrInvalidVersionFormat).
Proof. split; reflexivity. Qed.

Lemma byte_val_range : forall c, 0 <= byte_val c < 256.
Proof.
  intro c. unfold byte_val. pose proof (N_ascii_bounded c). lia.
Qed.

Lemma atoi_loop_cons : forall n ch r,
  Strconv.atoi_loop n (ch :: r) =
    if 9 <? wrap_uint8 (byte_val ch - 48) then None
    else Strconv.atoi_loop (wrap_int (n * 10 + wrap_uint8 (byte_val ch - 48))) r.
Proof. reflexivity. Qed.

Lemma digit_value : forall c,
  is_digit c = true -> wrap_uint8 (byte_val c - 48) = byte_val c - 48.
Proof.
  intros c H. unfold is_digit in H. apply andb_true_iff in H.
  destruct H as [H1 H2]. apply Z.leb_le in H1, H2.
  unfold wrap_uint8. apply Z.mod_small. lia.
Qed.

Lemma nondigit_value : forall c,
  is_digit c = false -> 9 < wrap_uint8 (byte_val c - 48).
Proof.
  intros c H. pose proof (byte_val_range c) as Hr.
  unfold is_digit in H. apply andb_false_iff in H. unfold wrap_uint8.
  destruct H as [H | H]; [apply Z.leb_gt in H | apply Z.leb_gt in H].
  - replace (byte_val c - 48) with (byte_val c + 208 + (-1) * 256) by lia.
    rewrite Z.mod_add by lia. rewrite Z.mod_small; lia.
  - rewrite Z.mod_small; lia.
Qed.

Lemma atoi_loop_nondigit : forall s n,
  forallb is_digit s = false -> Strconv.atoi_loop n s = None.
Proof.
  induction s as [| c r IH]; intros n H; [discriminate |].
  rewrite atoi_loop_cons. cbn [forallb] in H.
  destruct (is_digit c) eqn:Hc.
  - destruct (9 <? wrap_uint8 (byte_val c - 48)); [reflexivity |].
    apply IH. exact H.
  - apply nondigit_value in Hc. apply Z.ltb_lt in Hc. rewrite Hc. reflexivity.
Qed.

Lemma parseUint_loop_cons : forall n ch r,
  Strconv.parseUint_loop n (ch :: r) =
    let c := byte_val ch in
    let digit :=
      if (48 <=? c) && (c <=? 57) then Some (c - 48)
      else if (97 <=? Strconv.lower c) && (Strconv.lower c <=? 122)
           then Some (wrap_uint8 (Strconv.lower c - 97 + 10))
           else None in
    match digit with
    | None => (0, Some Strconv.ErrSyntax)
    | Some d =>
        if 10 <=? d then (0, Some Strconv.ErrSyntax)
        else if maxUint64 / 10 + 1 <=? n then (maxUint64, Some Strconv.ErrRange)
        else
          let n10 := wrap_uint64 (n * 10) in
          let n1 := wrap_uint64 (n10 + d) in
          if (n1 <? n10) || (maxUint64 <? n1)
          then (maxUint64, Some Strconv.ErrRange)
          else Strconv.parseUint_loop n1 r
    end.
Proof. reflexivity. Qed.

Lemma parseUint_loop_nondigit : forall s n,
  forallb is_digit s = false -> snd (Strconv.parseUint_loop n s) <> None.
Proof.
  induction s as [| ch r IH]; intros n H; [discriminate |].
  rewrite parseUint_loop_cons. cbn [forallb] in H. cbv zeta.
  unfold is_digit in H.
  destruct ((48 <=? byte_val ch) && (byte_val ch <=? 57)) eqn:Hd.
  - cbn [andb] in H.
    destruct (10 <=? byte_val ch - 48); [cbn; congruence |].
    destruct (maxUint64 / 10 + 1 <=? n); [cbn; congruence |].
    match goal with |- context [if ?b then _ else _] => destruct b end;
      [cbn; congruence |].
    apply IH. exact H.
  - destruct ((97 <=? Strconv.lower (byte_val ch))
              && (Strconv.lower (byte_val ch) <=? 122)) eqn:Hl;
      [| cbn; congruence].
    apply andb_true_iff in Hl. destruct Hl as [L1 L2].
    apply Z.leb_le in L1, L2.
    assert (Hge : (10 <=? wrap_uint8 (Strconv.lower (byte_val ch) - 97 + 10)) = true).
    { apply Z.leb_le. unfold wrap_uint8. rewrite Z.mod_small; lia. }
    rewrite Hge. cbn. congruence.
Qed.

Lemma parseUint_loop_range : forall s n un,
  Strconv.parseUint_loop n s = (un, Some Strconv.ErrRange) -> un = maxUint64.
Proof.
  induction s as [| ch r IH]; intros n un H; [discriminate |].
  rewrite parseUint_loop_cons in H. cbv zeta in H.
  repeat match type of H with
         | context [if ?b then _ else _] => destruct b
         | context [match ?o with Some _ => _ | None => _ end] => destruct o
         end;
    try discriminate; try (inversion H; reflexivity); eauto.
Qed.

Lemma Atoi_not_decimal : forall s,
  is_decimal s = false -> snd (Strconv.Atoi s) <> None.
Proof.
  intros [| c0 r] Hdec; [cbn; congruence |].
  unfold Strconv.Atoi, is_decimal in *.
  destruct ((0 <? Z.of_nat (List.length (c0 :: r)))
            && (Z.of_nat (List.length (c0 :: r)) <? 19)).
  - destruct (Ascii.eqb c0 "-" || Ascii.eqb c0 "+") eqn:Hsign.
    + destruct r as [| c1 r']; [cbn; congruence |].
      cbn [andb List.length]. 
      replace (Z.of_nat (S (List.length r')) <? 1) with false
        by (symmetry; apply Z.ltb_ge; lia).
      rewrite (atoi_loop_nondigit _ 0 Hdec). cbn. congruence.
    + cbn [andb]. rewrite (atoi_loop_nondigit _ 0 Hdec). cbn. congruence.
  - unfold Strconv.ParseInt.
    assert (Hsign : (Ascii.eqb c0 "+" || Ascii.eqb c0 "-")
                    = (Ascii.eqb c0 "-" || Ascii.eqb c0 "+")) by apply orb_comm.
    rewrite Hsign.
    set (s' := if Ascii.eqb c0 "-" || Ascii.eqb c0 "+" then r else c0 :: r).
    assert (Hs' : s' = [] \/ (s' <> [] /\ forallb is_digit s' = false)).
    { subst s'. destruct (Ascii.eqb c0 "-" || Ascii.eqb c0 "+").
      - destruct r; [left; reflexivity | right; split; [discriminate | exact Hdec]].
      - right. split; [discriminate | exact Hdec]. }
    destruct Hs' as [-> | [Hne Hnd]]; [cbn; congruence |].
    assert (HU : Strconv.ParseUint s' = Strconv.parseUint_loop 0 s')
      by (destruct s'; [contradiction | reflexivity]).
    rewrite HU.
    pose proof (parseUint_loop_nondigit s' 0 Hnd) as Herr.
    destruct (Strconv.parseUint_loop 0 s') as [un [[|] |]] eqn:E;
      [cbn; congruence | | cbn in Herr; congruence].
    apply parseUint_loop_range in E. subst un.
    destruct (Ascii.eqb c0 "-"); cbn; congruence.
Qed.

(** C8: for every version string of three components of which one is not
    a decimal integer (such as "1.b.3"), decoding fails with an error that
    wraps the version-format error and leaves major, minor and patch of
    the target at zero, also when an earlier component had been parsed
    and assigned. *)
Theorem version_bad_component_resets :
  forall (v : Version) (b a0 a1 a2 : list ascii),
  Bytes.Split (Bytes.Trim b dquote) "." = [a0; a1; a2] ->
  is_decimal a0 = false \/ is_decimal a1 = false \/ is_decimal a2 = false ->
  exists prefix : string,
    Version_UnmarshalJSON v b
      = (NewVersion 0 0 0, Some (ErrorfW prefix ErrInvalidVersionFormat)) /\
    errors_Is (ErrorfW prefix ErrInvalidVersionFormat) ErrInvalidVersionFormat
      = true.
Proof.
  intros v b a0 a1 a2 Hsplit Hbad. unfold Version_UnmarshalJSON.
  rewrite Hsplit.
  destruct (Strconv.Atoi a0) as [m0 [e0 |]] eqn:E0;
    [eexists; split; reflexivity |].
  destruct (Strconv.Atoi a1) as [m1 [e1 |]] eqn:E1;
    [eexists; split; reflexivity |].
  destruct (Strconv.Atoi a2) as [m2 [e2 |]] eqn:E2;
    [eexists; split; reflexivity |].
  exfalso.
  destruct Hbad as [H | [H | H]]; apply Atoi_not_decimal in H;
    [rewrite E0 in H | rewrite E1 in H | rewrite E2 in H]; cbn in H; congruence.
Qed.

Lemma version_bad_component_resets_witness :
  exists prefix : string,
    Version_UnmarshalJSON (NewVersion 7 8 9) (bytes "1.b.3")
      = (NewVersion 0 0 0, Some (ErrorfW prefix ErrInvalidVersionFormat)) /\
    errors_Is (ErrorfW prefix ErrInvalidVersionFormat) ErrInvalidVersionFormat
      = true.
Proof.
  apply (version_bad_component_resets (NewVersion 7 8 9) (bytes "1.b.3")
           (bytes "1") (bytes "b") (bytes "3")).
  - reflexivity.
  - right. left. reflexivity.
Defined.

(** *** Encode, then decode *)

Lemma wrap_int_small : forall z, - 2 ^ 63 <= z < 2 ^ 63 -> wrap_int z = z.
Proof.
  intros z H. unfold wrap_int.
  change (2 ^ 63) with 9223372036854775808 in *.
  change (2 ^ 64) with 18446744073709551616.
  rewrite Z.mod_small; lia.
Qed.

Lemma wrap_uint64_small : forall z, 0 <= z < 2 ^ 64 -> wrap_uint64 z = z.
Proof. intros z H. unfold wrap_uint64. apply Z.mod_small. exact H. Qed.

Lemma byte_val_byte_of : forall z, byte_val (byte_of z) = wrap_uint8 z.
Proof.
  intro z. unfold byte_val, byte_of, wrap_uint8.
  pose proof (Z.mod_pos_bound z 256 ltac:(lia)) as Hb.
  rewrite N_ascii_embedding by lia. lia.
Qed.

Lemma digit_byte : forall d, 0 <= d <= 9 -> byte_val (byte_of (48 + d)) = 48 + d.
Proof.
  intros d H. rewrite byte_val_byte_of. unfold wrap_uint8.
  apply Z.mod_small. lia.
Qed.

Lemma digit_byte_is_digit : forall d,
  0 <= d <= 9 -> is_digit (byte_of (48 + d)) = true.
Proof.
  intros d H. unfold is_digit. rewrite digit_byte by exact H.
  apply andb_true_iff. split; apply Z.leb_le; lia.
Qed.

Lemma fmt_digits_succ : forall f u acc,
  Strconv.fmt_digits (S f) u acc =
    if 10 <=? u
    then Strconv.fmt_digits f (u / 10) (byte_of (48 + u mod 10) :: acc)
    else byte_of (48 + u) :: acc.
Proof. reflexivity. Qed.

Lemma fmt_digits_all_digits : forall fuel u acc,
  0 <= u -> forallb is_digit acc = true ->
  forallb is_digit (Strconv.fmt_digits fuel u acc) = true.
Proof.
  induction fuel as [| f IH]; intros u acc Hu Hacc; [exact Hacc |].
  rewrite fmt_digits_succ. destruct (Z.leb_spec 10 u) as [Hge | Hlt].
  - apply IH; [apply Z.div_pos; lia |].
    cbn [forallb]. rewrite Hacc, digit_byte_is_digit; [reflexivity |].
    pose proof (Z.mod_pos_bound u 10 ltac:(lia)). lia.
  - cbn [forallb]. rewrite Hacc, digit_byte_is_digit; [reflexivity | lia].
Qed.

Lemma fmt_digits_nonempty : forall fuel u acc,
  fuel <> O \/ acc <> [] -> Strconv.fmt_digits fuel u acc <> [].
Proof.
  induction fuel as [| f IH]; intros u acc H.
  - destruct H as [H | H]; [contradiction | exact H].
  - rewrite fmt_digits_succ. destruct (10 <=? u); [| discriminate].
    apply IH. right. discriminate.
Qed.

Lemma atoi_loop_digit : forall n d acc,
  0 <= d <= 9 -> 0 <= n -> n * 10 + d < 2 ^ 63 ->
  Strconv.atoi_loop n (byte_of (48 + d) :: acc)
    = Strconv.atoi_loop (n * 10 + d) acc.
Proof.
  intros n d acc Hd Hn Hb. rewrite atoi_loop_cons.
  rewrite (digit_value _ (digit_byte_is_digit d Hd)), digit_byte by exact Hd.
  replace (48 + d - 48) with d by lia.
  replace (9 <? d) with false by (symmetry; apply Z.ltb_ge; lia).
  rewrite wrap_int_small; [reflexivity |].
  change (2 ^ 63) with 9223372036854775808 in *. lia.
Qed.

Lemma parseUint_loop_digit : forall n d acc,
  0 <= d <= 9 -> 0 <= n -> n * 10 + d < 2 ^ 63 ->
  Strconv.parseUint_loop n (byte_of (48 + d) :: acc)
    = Strconv.parseUint_loop (n * 10 + d) acc.
Proof.
  intros n d acc Hd Hn Hb. rewrite parseUint_loop_cons. cbv zeta.
  rewrite digit_byte by exact Hd.
  change (2 ^ 63) with 9223372036854775808 in Hb.
  replace ((48 <=? 48 + d) && (48 + d <=? 57)) with true
    by (symmetry; apply andb_true_iff; split; apply Z.leb_le; lia).
  replace (48 + d - 48) with d by lia.
  replace (10 <=? d) with false by (symmetry; apply Z.leb_gt; lia).
  change (maxUint64 / 10 + 1) with 1844674407370955162.
  replace (1844674407370955162 <=? n) with false
    by (symmetry; apply Z.leb_gt; lia).
  assert (H10 : wrap_uint64 (n * 10) = n * 10).
  { apply wrap_uint64_small. change (2 ^ 64) with 18446744073709551616. lia. }
  assert (H1 : wrap_uint64 (n * 10 + d) = n * 10 + d).
  { apply wrap_uint64_small. change (2 ^ 64) with 18446744073709551616. lia. }
  rewrite H10, H1.
  replace (n * 10 + d <? n * 10) with false by (symmetry; apply Z.ltb_ge; lia).
  change maxUint64 with 18446744073709551615.
  replace (18446744073709551615 <? n * 10 + d) with false
    by (symmetry; apply Z.ltb_ge; lia).
  reflexivity.
Qed.

(** Reading back what the formatting loop wrote, for either reader. *)
Section ReadBack.

Variable A : Type.
Variable loop : Z -> list ascii -> A.
Hypothesis loop_digit : forall n d acc,
  0 <= d <= 9 -> 0 <= n -> n * 10 + d < 2 ^ 63 ->
  loop n (byte_of (48 + d) :: acc) = loop (n * 10 + d) acc.

Lemma loop_fmt_digits : forall fuel u acc,
  0 <= u < 2 ^ 63 -> u < 10 ^ Z.of_nat fuel ->
  loop 0 (Strconv.fmt_digits fuel u acc) = loop u acc.
Proof.
  induction fuel as [| f IH]; intros u acc Hu Hfuel.
  - cbn in Hfuel. replace u with 0 by lia. reflexivity.
  - rewrite fmt_digits_succ.
    pose proof (Z.div_mod u 10 ltac:(lia)) as Hdm.
    pose proof (Z.mod_pos_bound u 10 ltac:(lia)) as Hm.
    destruct (Z.leb_spec 10 u) as [Hge | Hlt].
    + rewrite IH.
      * rewrite loop_digit; [f_equal; lia | lia | lia | lia].
      * split; [apply Z.div_pos; lia |].
        apply Z.div_lt_upper_bound; lia.
      * apply Z.div_lt_upper_bound; [lia |].
        rewrite Nat2Z.inj_succ, Z.pow_succ_r in Hfuel by lia. exact Hfuel.
    + rewrite loop_digit; [f_equal; lia | lia | lia | lia].
Qed.

End ReadBack.

Lemma digit_not_sign : forall c,
  is_digit c = true -> Ascii.eqb c "-" = false /\ Ascii.eqb c "+" = false /\
                       Ascii.eqb c "." = false /\ Ascii.eqb c dquote = false.
Proof.
  intros c H.
  repeat split;
    match goal with
    | |- Ascii.eqb c ?k = false =>
        destruct (Ascii.eqb_spec c k) as [-> |]; [discriminate H | reflexivity]
    end.
Qed.

Lemma Atoi_fmt_digits : forall u,
  0 <= u < 2 ^ 63 -> Strconv.Atoi (Strconv.fmt_digits 20 u []) = (u, None).
Proof.
  intros u Hu.
  assert (Hfuel : u < 10 ^ Z.of_nat 20).
  { change (10 ^ Z.of_nat 20) with 100000000000000000000.
    change (2 ^ 63) with 9223372036854775808 in Hu. lia. }
  pose proof (loop_fmt_digits _ Strconv.atoi_loop atoi_loop_digit 20 u [] Hu Hfuel)
    as Hfast.
  pose proof (loop_fmt_digits _ Strconv.parseUint_loop parseUint_loop_digit
                20 u [] Hu Hfuel) as Hslow.
  pose proof (fmt_digits_all_digits 20 u [] ltac:(lia) eq_refl) as Hdig.
  pose proof (fmt_digits_nonempty 20 u [] ltac:(left; discriminate)) as Hne.
  destruct (Strconv.fmt_digits 20 u []) as [| c0 r] eqn:Es; [contradiction |].
  cbn [forallb] in Hdig. apply andb_true_iff in Hdig.
  destruct Hdig as [Hc0 _].
  destruct (digit_not_sign c0 Hc0) as (Hm & Hp & _ & _).
  unfold Strconv.Atoi.
  destruct ((0 <? Z.of_nat (List.length (c0 :: r)))
            && (Z.of_nat (List.length (c0 :: r)) <? 19)).
  - rewrite Hm, Hp. cbn [orb andb]. rewrite Hfast. reflexivity.
  - unfold Strconv.ParseInt, Strconv.ParseUint.
    rewrite Hm, Hp. cbn [orb andb negb]. rewrite Hslow. cbn [Strconv.parseUint_loop].
    replace (2 ^ 63 <=? u) with false by (symmetry; apply Z.leb_gt; lia).
    rewrite wrap_int_small; [reflexivity |].
    change (2 ^ 63) with 9223372036854775808 in *. lia.
Qed.

Lemma fmt_d_nonneg : forall a,
  0 <= a -> Strconv.fmt_d a = Strconv.fmt_digits 20 a [].
Proof.
  intros a Ha. unfold Strconv.fmt_d.
  replace (a <? 0) with false by (symmetry; apply Z.ltb_ge; lia).
  reflexivity.
Qed.

Lemma Split_digits : forall s,
  forallb is_digit s = true -> Bytes.Split s "." = [s].
Proof.
  induction s as [| x r IH]; intros H; [reflexivity |].
  cbn [forallb] in H. apply andb_true_iff in H. destruct H as [Hx Hr].
  destruct (digit_not_sign x Hx) as (_ & _ & Hdot & _).
  cbn [Bytes.Split]. rewrite Hdot, (IH Hr). reflexivity.
Qed.

Lemma Split_digits_dot : forall s rest,
  forallb is_digit s = true ->
  Bytes.Split (s ++ "."%char :: rest) "." = s :: Bytes.Split rest ".".
Proof.
  induction s as [| x r IH]; intros rest H; [reflexivity |].
  cbn [forallb] in H. apply andb_true_iff in H. destruct H as [Hx Hr].
  destruct (digit_not_sign x Hx) as (_ & _ & Hdot & _).
  cbn [Bytes.Split app]. rewrite Hdot, (IH rest Hr). reflexivity.
Qed.

Lemma plain_not_quote : forall c, is_plain c = true -> Ascii.eqb c dquote = false.
Proof.
  intros c H. destruct (Ascii.eqb_spec c dquote) as [-> |];
    [discriminate H | reflexivity].
Qed.

Lemma escape_byte_plain : forall c, is_plain c = true -> Json.escape_byte c = [c].
Proof.
  intros c H. unfold is_plain in H. apply orb_true_iff in H.
  destruct H as [H | H].
  - unfold is_digit in H. apply andb_true_iff in H. destruct H as [H1 H2].
    apply Z.leb_le in H1, H2. unfold Json.escape_byte. cbv zeta.
    repeat match goal with
           | |- context [?x =? ?y] =>
               replace (x =? y) with false by (symmetry; apply Z.eqb_neq; lia)
           | |- context [?x <? ?y] =>
               replace (x <? y) with false by (symmetry; apply Z.ltb_ge; lia)
           end.
    reflexivity.
  - apply Ascii.eqb_eq in H. subst c. reflexivity.
Qed.

Lemma marshal_string_plain : forall s,
  forallb is_plain s = true -> Json.marshal_string s = dquote :: s ++ [dquote].
Proof.
  intros s H. unfold Json.marshal_string. f_equal. f_equal.
  induction s as [| x r IH]; [reflexivity |].
  cbn [forallb] in H. apply andb_true_iff in H. destruct H as [Hx Hr].
  cbn [flat_map]. rewrite (escape_byte_plain x Hx), (IH Hr). reflexivity.
Qed.

Lemma trimRightByte_plain : forall s,
  forallb is_plain s = true ->
  Bytes.trimRightByte (s ++ [dquote]) dquote = s.
Proof.
  induction s as [| x r IH]; intros H; [reflexivity |].
  cbn [forallb] in H. apply andb_true_iff in H. destruct H as [Hx Hr].
  cbn [app Bytes.trimRightByte]. rewrite (IH Hr).
  destruct r; [rewrite (plain_not_quote x Hx) |]; reflexivity.
Qed.

Lemma Trim_quoted : forall s,
  forallb is_plain s = true ->
  Bytes.Trim (dquote :: s ++ [dquote]) dquote = s.
Proof.
  intros s H. unfold Bytes.Trim. cbn [Bytes.trimRightByte].
  rewrite (trimRightByte_plain s H).
  destruct s as [| x r]; [reflexivity |].
  cbn [forallb] in H. apply andb_true_iff in H. destruct H as [Hx _].
  cbn [Bytes.trimLeftByte]. 
  replace (Ascii.eqb dquote dquote) with true by reflexivity.
  cbn [Bytes.trimLeftByte]. rewrite (plain_not_quote x Hx). reflexivity.
Qed.

Lemma trimRightByte_plain_id : forall s,
  forallb is_plain s = true -> Bytes.trimRightByte s dquote = s.
Proof.
  induction s as [| x r IH]; intros H; [reflexivity |].
  cbn [forallb] in H. apply andb_true_iff in H. destruct H as [Hx Hr].
  cbn [Bytes.trimRightByte]. rewrite (IH Hr).
  destruct r; [rewrite (plain_not_quote x Hx) |]; reflexivity.
Qed.

Lemma Trim_plain : forall s,
  forallb is_plain s = true -> Bytes.Trim s dquote = s.
Proof.
  intros s H. unfold Bytes.Trim. rewrite (trimRightByte_plain_id s H).
  destruct s as [| x r]; [reflexivity |].
  cbn [forallb] in H. apply andb_true_iff in H. destruct H as [Hx _].
  cbn [Bytes.trimLeftByte]. rewrite (plain_not_quote x Hx). reflexivity.
Qed.

Lemma digits_plain : forall s,
  forallb is_digit s = true -> forallb is_plain s = true.
Proof.
  induction s as [| x r IH]; intros H; [reflexivity |].
  cbn [forallb] in *. apply andb_true_iff in H. destruct H as [Hx Hr].
  unfold is_plain at 1. rewrite Hx, (IH Hr). reflexivity.
Qed.

(** C9: for every Version whose major, minor and patch are non-negative
    (and, being Go ints, at most [maxInt]), decoding its encoded form
    gives back the same Version, whatever the target held before. *)
Theorem version_encode_decode : forall v v0 : Version,
  0 <= Major v <= maxInt -> 0 <= Minor v <= maxInt -> 0 <= Patch v <= maxInt ->
  snd (Version_MarshalJSON v) = None /\
  Version_UnmarshalJSON v0 (fst (Version_MarshalJSON v)) = (v, None) /\
  Version_UnmarshalJSON v0 (Version_String v) = (v, None).
Proof.
  intros [a b c] v0. cbn [Major Minor Patch]. unfold maxInt. intros Ha Hb Hc.
  assert (Ha' : 0 <= a < 2 ^ 63) by lia.
  assert (Hb' : 0 <= b < 2 ^ 63) by lia.
  assert (Hc' : 0 <= c < 2 ^ 63) by lia.
  pose proof (fmt_digits_all_digits 20 a [] ltac:(lia) eq_refl) as Da.
  pose proof (fmt_digits_all_digits 20 b [] ltac:(lia) eq_refl) as Db.
  pose proof (fmt_digits_all_digits 20 c [] ltac:(lia) eq_refl) as Dc.
  assert (Hstr : Version_String (mkVersion a b c) =
                 Strconv.fmt_digits 20 a [] ++ "."%char
                   :: Strconv.fmt_digits 20 b [] ++ "."%char
                   :: Strconv.fmt_digits 20 c []).
  { unfold Version_String. cbn [Major Minor Patch].
    rewrite !fmt_d_nonneg by lia. reflexivity. }
  assert (Hplain : forallb is_plain (Version_String (mkVersion a b c)) = true).
  { rewrite Hstr. rewrite forallb_app. cbn [forallb]. rewrite forallb_app.
    cbn [forallb]. rewrite !digits_plain by assumption. reflexivity. }
  assert (Hsplit : Bytes.Split (Version_String (mkVersion a b c)) "." =
                   [Strconv.fmt_digits 20 a []; Strconv.fmt_digits 20 b [];
                    Strconv.fmt_digits 20 c []]).
  { rewrite Hstr. rewrite Split_digits_dot by assumption.
    rewrite Split_digits_dot by assumption.
    rewrite Split_digits by assumption. reflexivity. }
  assert (Hdecode : forall body,
            Bytes.Trim body dquote = Version_String (mkVersion a b c) ->
            Version_UnmarshalJSON v0 body = (mkVersion a b c, None)).
  { intros body Hbody. unfold Version_UnmarshalJSON.
    rewrite Hbody, Hsplit, !Atoi_fmt_digits by assumption. reflexivity. }
  split; [reflexivity |]. split.
  - apply Hdecode. unfold Version_MarshalJSON. cbn [fst].
    rewrite (marshal_string_plain _ Hplain). apply Trim_quoted. exact Hplain.
  - apply Hdecode. apply Trim_plain. exact Hplain.
Qed.

Lemma version_encode_decode_witness :
  Version_UnmarshalJSON (NewVersion 7 8 9)
    (fst (Version_MarshalJSON (NewVersion 3 1 9223372036854775807)))
    = (NewVersion 3 1 9223372036854775807, None).
Proof.
  apply (proj1 (proj2 (version_encode_decode
                         (NewVersion 3 1 9223372036854775807) (NewVersion 7 8 9)
                         ltac:(cbn; unfold maxInt; lia)
                         ltac:(cbn; unfold maxInt; lia)
                         ltac:(cbn; unfold maxInt; lia)))).
Defined.

(** * Further properties *)

(** ** Brightness and colour constructors *)

(** X1: for every unsigned input the brightness constructor returns a
    value of at most 100, the input itself when it is at most 100, and
    constructing again from the result changes nothing. *)
Theorem NewBrightness_caps : forall value : Z,
  0 <= value ->
  0 <= NewBrightness value <= 100 /\
  NewBrightness value = Z.min value 100 /\
  NewBrightness (NewBrightness value) = NewBrightness value.
Proof.
  intros value Hv. unfold NewBrightness.
  destruct (Z.ltb_spec 100 value) as [H | H].
  - cbn. repeat split; lia.
  - destruct (Z.ltb_spec 100 value) as [H' | H']; [lia |].
    repeat split; lia.
Qed.

Lemma NewBrightness_caps_witness :
  NewBrightness 150 = Z.min 150 100 /\ NewBrightness 75 = Z.min 75 100.
Proof.
  split.
  - apply (proj1 (proj2 (NewBrightness_caps 150 ltac:(lia)))).
  - apply (proj1 (proj2 (NewBrightness_caps 75 ltac:(lia)))).
Defined.

(** X2: the colour constructor caps each of the three channels at 255
    independently of the other two, keeps channels that are in range, and
    is idempotent. *)
Theorem NewColor_caps : forall r g b : Z,
  0 <= r -> 0 <= g -> 0 <= b ->
  NewColor r g b = mkColor (Z.min r 255) (Z.min g 255) (Z.min b 255) /\
  0 <= R (NewColor r g b) <= 255 /\
  0 <= G (NewColor r g b) <= 255 /\
  0 <= B (NewColor r g b) <= 255 /\
  NewColor (R (NewColor r g b)) (G (NewColor r g b)) (B (NewColor r g b))
    = NewColor r g b.
Proof.
  intros r g b Hr Hg Hb.
  assert (Hcap : forall x, (if 255 <? x then 255 else x) = Z.min x 255).
  { intro x. destruct (Z.ltb_spec 255 x); lia. }
  assert (E : forall x y z,
             NewColor x y z = mkColor (Z.min x 255) (Z.min y 255) (Z.min z 255)).
  { intros x y z. unfold NewColor. rewrite !Hcap. reflexivity. }
  rewrite !E. cbn [R G B].
  repeat split; try lia.
  f_equal; lia.
Qed.

Lemma NewColor_caps_witness :
  NewColor 300 0 255 = mkColor (Z.min 300 255) (Z.min 0 255) (Z.min 255 255).
Proof.
  apply (proj1 (NewColor_caps 300 0 255 ltac:(lia) ltac:(lia) ltac:(lia))).
Defined.

(** ** Version strings, continued *)

Lemma wrap_int_range : forall z, - 2 ^ 63 <= wrap_int z < 2 ^ 63.
Proof.
  intro z. unfold wrap_int.
  change (2 ^ 63) with 9223372036854775808.
  change (2 ^ 64) with 18446744073709551616.
  pose proof (Z.mod_pos_bound (z + 9223372036854775808) 18446744073709551616
                ltac:(lia)).
  lia.
Qed.

Lemma atoi_loop_range : forall s n m,
  - 2 ^ 63 <= n < 2 ^ 63 ->
  Strconv.atoi_loop n s = Some m -> - 2 ^ 63 <= m < 2 ^ 63.
Proof.
  induction s as [| ch r IH]; intros n m Hn H.
  - cbn in H. inversion H. subst m. exact Hn.
  - rewrite atoi_loop_cons in H.
    destruct (9 <? wrap_uint8 (byte_val ch - 48)); [discriminate |].
    eapply IH; [| exact H]. apply wrap_int_range.
Qed.

Lemma atoi_loop_digits : forall s n,
  forallb is_digit s = true -> exists m, Strconv.atoi_loop n s = Some m.
Proof.
  induction s as [| ch r IH]; intros n H; [exists n; reflexivity |].
  cbn [forallb] in H. apply andb_true_iff in H. destruct H as [Hc Hr].
  rewrite atoi_loop_cons, (digit_value ch Hc).
  unfold is_digit in Hc. apply andb_true_iff in Hc. destruct Hc as [H1 H2].
  apply Z.leb_le in H1, H2.
  replace (9 <? byte_val ch - 48) with false by (symmetry; apply Z.ltb_ge; lia).
  apply IH. exact Hr.
Qed.

Lemma ParseUint_range : forall s un,
  Strconv.ParseUint s = (un, Some Strconv.ErrRange) -> un = maxUint64.
Proof.
  intros [| c r] un H; [discriminate |].
  apply parseUint_loop_range in H. exact H.
Qed.

(** Whatever [Atoi] returns without an error is a value of type [int]. *)
Lemma Atoi_int_range : forall s n,
  Strconv.Atoi s = (n, None) -> - 2 ^ 63 <= n < 2 ^ 63.
Proof.
  intros s n. unfold Strconv.Atoi.
  destruct ((0 <? Z.of_nat (List.length s)) && (Z.of_nat (List.length s) <? 19)).
  - destruct s as [| c0 r]; [discriminate |].
    destruct ((Ascii.eqb c0 "-" || Ascii.eqb c0 "+")
              && (Z.of_nat (List.length
                    (if Ascii.eqb c0 "-" || Ascii.eqb c0 "+" then r else c0 :: r))
                  <? 1)); [discriminate |].
    destruct (Strconv.atoi_loop 0
                (if Ascii.eqb c0 "-" || Ascii.eqb c0 "+" then r else c0 :: r))
      as [m |] eqn:E; [| discriminate].
    apply atoi_loop_range in E;
      [| change (2 ^ 63) with 9223372036854775808; lia].
    destruct (Ascii.eqb c0 "-"); intros H; inversion H; subst n;
      [apply wrap_int_range | exact E].
  - unfold Strconv.ParseInt. destruct s as [| c0 r]; [discriminate |].
    destruct (Strconv.ParseUint
                (if Ascii.eqb c0 "+" || Ascii.eqb c0 "-" then r else c0 :: r))
      as [un [[|] |]] eqn:EU; try discriminate.
    + apply ParseUint_range in EU. subst un.
      destruct (Ascii.eqb c0 "-"); cbn; discriminate.
    + destruct (negb (Ascii.eqb c0 "-") && (2 ^ 63 <=? un)); [discriminate |].
      destruct (Ascii.eqb c0 "-" && (2 ^ 63 <? un)); [discriminate |].
      destruct (Ascii.eqb c0 "-"); intros H; inversion H; apply wrap_int_range.
Qed.

Lemma Atoi_decimal_short : forall s,
  is_decimal s = true -> (List.length s <= 18)%nat ->
  snd (Strconv.Atoi s) = None.
Proof.
  intros [| c0 r] Hdec Hlen; [discriminate |].
  unfold Strconv.Atoi, is_decimal in *.
  replace ((0 <? Z.of_nat (List.length (c0 :: r)))
           && (Z.of_nat (List.length (c0 :: r)) <? 19)) with true
    by (symmetry; apply andb_true_iff; split; apply Z.ltb_lt; cbn in *; lia).
  destruct (Ascii.eqb c0 "-" || Ascii.eqb c0 "+").
  - destruct r as [| c1 r']; [discriminate |].
    cbn [andb List.length].
    replace (Z.of_nat (S (List.length r')) <? 1) with false
      by (symmetry; apply Z.ltb_ge; lia).
    destruct (atoi_loop_digits _ 0 Hdec) as [m ->]. reflexivity.
  - cbn [andb]. destruct (atoi_loop_digits _ 0 Hdec) as [m ->]. reflexivity.
Qed.

Lemma fmt_digits_nonempty_20 : forall u, Strconv.fmt_digits 20 u [] <> [].
Proof. intro u. apply fmt_digits_nonempty. left. discriminate. Qed.

(** [Atoi] reads back what [%d] writes, for every [int]. *)
Lemma Atoi_fmt_d : forall a,
  - 2 ^ 63 <= a < 2 ^ 63 -> Strconv.Atoi (Strconv.fmt_d a) = (a, None).
Proof.
  intros a Ha.
  destruct (Z.ltb_spec a 0) as [Hneg | Hpos].
  2:{ rewrite fmt_d_nonneg by exact Hpos. apply Atoi_fmt_digits. lia. }
  destruct (Z.eq_dec a (- 2 ^ 63)) as [-> | Hmin]; [vm_compute; reflexivity |].
  assert (Hu : 0 <= - a < 2 ^ 63)
    by (change (2 ^ 63) with 9223372036854775808 in *; lia).
  assert (Hfmt : Strconv.fmt_d a = "-"%char :: Strconv.fmt_digits 20 (- a) []).
  { unfold Strconv.fmt_d.
    replace (a <? 0) with true by (symmetry; apply Z.ltb_lt; lia).
    rewrite wrap_uint64_small; [reflexivity |].
    change (2 ^ 63) with 9223372036854775808 in *.
    change (2 ^ 64) with 18446744073709551616. lia. }
  assert (Hfuel : - a < 10 ^ Z.of_nat 20).
  { change (10 ^ Z.of_nat 20) with 100000000000000000000.
    change (2 ^ 63) with 9223372036854775808 in *. lia. }
  pose proof (loop_fmt_digits _ Strconv.atoi_loop atoi_loop_digit 20 (- a) []
                Hu Hfuel) as Hfast.
  pose proof (loop_fmt_digits _ Strconv.parseUint_loop parseUint_loop_digit
                20 (- a) [] Hu Hfuel) as Hslow.
  pose proof (fmt_digits_nonempty_20 (- a)) as Hne.
  rewrite Hfmt. unfold Strconv.Atoi.
  destruct (Strconv.fmt_digits 20 (- a) []) as [| c1 r] eqn:Es; [contradiction |].
  destruct ((0 <? Z.of_nat (List.length ("-"%char :: c1 :: r)))
            && (Z.of_nat (List.length ("-"%char :: c1 :: r)) <? 19)).
  - replace (Ascii.eqb "-" "-") with true by reflexivity.
    cbn [orb andb List.length].
    replace (Z.of_nat (S (List.length r)) <? 1) with false
      by (symmetry; apply Z.ltb_ge; lia).
    rewrite Hfast. cbn [Strconv.atoi_loop].
    rewrite wrap_int_small; [f_equal; lia |].
    change (2 ^ 63) with 9223372036854775808 in *. lia.
  - unfold Strconv.ParseInt, Strconv.ParseUint.
    replace (Ascii.eqb "-" "-") with true by reflexivity.
    replace (Ascii.eqb "-" "+") with false by reflexivity.
    cbn [orb andb negb]. rewrite Hslow. cbn [Strconv.parseUint_loop].
    replace (2 ^ 63 <? - a) with false by (symmetry; apply Z.ltb_ge; lia).
    rewrite (wrap_int_small (- a));
      [| change (2 ^ 63) with 9223372036854775808 in *; lia].
    rewrite wrap_int_small; [f_equal; lia |].
    change (2 ^ 63) with 9223372036854775808 in *. lia.
Qed.

Lemma trimRightByte_snoc : forall b c,
  Bytes.trimRightByte (b ++ [c]) c = Bytes.trimRightByte b c.
Proof.
  induction b as [| x r IH]; intro c.
  - cbn. rewrite Ascii.eqb_refl. reflexivity.
  - cbn [app Bytes.trimRightByte]. rewrite IH. reflexivity.
Qed.

Lemma Trim_snoc : forall b c, Bytes.Trim (b ++ [c]) c = Bytes.Trim b c.
Proof. intros b c. unfold Bytes.Trim. rewrite trimRightByte_snoc. reflexivity. Qed.

Lemma Trim_cons : forall b c, Bytes.Trim (c :: b) c = Bytes.Trim b c.
Proof.
  intros b c. unfold Bytes.Trim. cbn [Bytes.trimRightByte].
  destruct (Bytes.trimRightByte b c) as [| x r]; rewrite ?Ascii.eqb_refl;
    cbn [Bytes.trimLeftByte]; rewrite ?Ascii.eqb_refl; reflexivity.
Qed.

(** Strings made of bytes that are neither the quote nor escaped by the
    JSON encoder pass through quoting and trimming unchanged. *)
Section SafeBytes.

Variable P : ascii -> bool.
Hypothesis P_not_quote : forall c, P c = true -> Ascii.eqb c dquote = false.
Hypothesis P_unescaped : forall c, P c = true -> Json.escape_byte c = [c].

Lemma marshal_string_safe : forall s,
  forallb P s = true -> Json.marshal_string s = dquote :: s ++ [dquote].
Proof.
  intros s H. unfold Json.marshal_string. do 2 f_equal.
  induction s as [| x r IH]; [reflexivity |].
  cbn [forallb] in H. apply andb_true_iff in H. destruct H as [Hx Hr].
  cbn [flat_map]. rewrite (P_unescaped x Hx), (IH Hr). reflexivity.
Qed.

Lemma trimRightByte_safe : forall s,
  forallb P s = true -> Bytes.trimRightByte s dquote = s.
Proof.
  induction s as [| x r IH]; intros H; [reflexivity |].
  cbn [forallb] in H. apply andb_true_iff in H. destruct H as [Hx Hr].
  cbn [Bytes.trimRightByte]. rewrite (IH Hr).
  destruct r; [rewrite (P_not_quote x Hx) |]; reflexivity.
Qed.

Lemma Trim_safe : forall s, forallb P s = true -> Bytes.Trim s dquote = s.
Proof.
  intros s H. unfold Bytes.Trim. rewrite (trimRightByte_safe s H).
  destruct s as [| x r]; [reflexivity |].
  cbn [forallb] in H. apply andb_true_iff in H. destruct H as [Hx _].
  cbn [Bytes.trimLeftByte]. rewrite (P_not_quote x Hx). reflexivity.
Qed.

Lemma Trim_marshal_string_safe : forall s,
  forallb P s = true -> Bytes.Trim (Json.marshal_string s) dquote = s.
Proof.
  intros s H. rewrite (marshal_string_safe s H), Trim_cons, Trim_snoc.
  apply Trim_safe. exact H.
Qed.

End SafeBytes.

Lemma version_byte_not_quote : forall c,
  is_version_byte c = true -> Ascii.eqb c dquote = false.
Proof.
  intros c H. destruct (Ascii.eqb_spec c dquote) as [-> |];
    [discriminate H | reflexivity].
Qed.

Lemma version_byte_unescaped : forall c,
  is_version_byte c = true -> Json.escape_byte c = [c].
Proof.
  intros c H. unfold is_version_byte in H. apply orb_true_iff in H.
  destruct H as [H | H]; [apply escape_byte_plain; exact H |].
  apply Ascii.eqb_eq in H. subst c. reflexivity.
Qed.

Lemma component_byte_not_dot : forall c,
  is_component_byte c = true -> Ascii.eqb c "." = false.
Proof.
  intros c H. destruct (Ascii.eqb_spec c ".") as [-> |];
    [discriminate H | reflexivity].
Qed.

Lemma component_version_bytes : forall s,
  forallb is_component_byte s = true -> forallb is_version_byte s = true.
Proof.
  induction s as [| x r IH]; intros H; [reflexivity |].
  cbn [forallb] in *. apply andb_true_iff in H. destruct H as [Hx Hr].
  rewrite (IH Hr), andb_true_r. unfold is_component_byte in Hx.
  unfold is_version_byte, is_plain.
  destruct (is_digit x); [reflexivity |]. cbn in Hx. rewrite Hx.
  apply orb_true_r.
Qed.

Lemma digits_component_bytes : forall s,
  forallb is_digit s = true -> forallb is_component_byte s = true.
Proof.
  induction s as [| x r IH]; intros H; [reflexivity |].
  cbn [forallb] in *. apply andb_true_iff in H. destruct H as [Hx Hr].
  unfold is_component_byte at 1. rewrite Hx, (IH Hr). reflexivity.
Qed.

Lemma fmt_d_component_bytes : forall a,
  forallb is_component_byte (Strconv.fmt_d a) = true.
Proof.
  intro a. unfold Strconv.fmt_d. destruct (Z.ltb_spec a 0) as [Hn | Hp].
  - cbn [forallb]. replace (is_component_byte "-") with true by reflexivity.
    apply digits_component_bytes, fmt_digits_all_digits; [| reflexivity].
    unfold wrap_uint64. apply Z.mod_pos_bound. reflexivity.
  - apply digits_component_bytes, fmt_digits_all_digits; [exact Hp | reflexivity].
Qed.

Lemma Split_component : forall s,
  forallb is_component_byte s = true -> Bytes.Split s "." = [s].
Proof.
  induction s as [| x r IH]; intros H; [reflexivity |].
  cbn [forallb] in H. apply andb_true_iff in H. destruct H as [Hx Hr].
  cbn [Bytes.Split]. rewrite (component_byte_not_dot x Hx), (IH Hr). reflexivity.
Qed.

Lemma Split_component_dot : forall s rest,
  forallb is_component_byte s = true ->
  Bytes.Split (s ++ "."%char :: rest) "." = s :: Bytes.Split rest ".".
Proof.
  induction s as [| x r IH]; intros rest H; [reflexivity |].
  cbn [forallb] in H. apply andb_true_iff in H. destruct H as [Hx Hr].
  cbn [Bytes.Split app].
  rewrite (component_byte_not_dot x Hx), (IH rest Hr). reflexivity.
Qed.

Lemma Version_String_bytes : forall v,
  forallb is_version_byte (Version_String v) = true.
Proof.
  intro v. unfold Version_String. rewrite forallb_app. cbn [forallb].
  rewrite forallb_app. cbn [forallb].
  rewrite !component_version_bytes by apply fmt_d_component_bytes.
  reflexivity.
Qed.

Lemma Version_String_Split : forall v,
  Bytes.Split (Version_String v) "." =
    [Strconv.fmt_d (Major v); Strconv.fmt_d (Minor v); Strconv.fmt_d (Patch v)].
Proof.
  intro v. unfold Version_String.
  rewrite !Split_component_dot by apply fmt_d_component_bytes.
  rewrite Split_component by apply fmt_d_component_bytes. reflexivity.
Qed.

(** Decoding what [MarshalJSON] or [String] wrote, for components that are
    values of type [int]. *)
Lemma decode_encoded : forall v v0 : Version,
  is_int (Major v) -> is_int (Minor v) -> is_int (Patch v) ->
  Version_UnmarshalJSON v0 (fst (Version_MarshalJSON v)) = (v, None) /\
  Version_UnmarshalJSON v0 (Version_String v) = (v, None).
Proof.
  intros v v0 Ha Hb Hc. unfold is_int, minInt, maxInt in *.
  assert (Hdecode : forall body,
            Bytes.Trim body dquote = Version_String v ->
            Version_UnmarshalJSON v0 body = (v, None)).
  { intros body Hbody. unfold Version_UnmarshalJSON.
    rewrite Hbody, Version_String_Split, !Atoi_fmt_d by lia.
    destruct v; reflexivity. }
  split; apply Hdecode.
  - unfold Version_MarshalJSON. cbn [fst].
    apply (Trim_marshal_string_safe is_version_byte
             version_byte_not_quote version_byte_unescaped).
    apply Version_String_bytes.
  - apply (Trim_safe is_version_byte version_byte_not_quote).
    apply Version_String_bytes.
Qed.

(** X3: for every Version, negative components included, decoding the
    JSON that MarshalJSON produces gives back the same Version, whatever
    the target held; so does decoding the unquoted String form. *)
Theorem version_roundtrip_all_ints : forall v v0 : Version,
  is_int (Major v) -> is_int (Minor v) -> is_int (Patch v) ->
  snd (Version_MarshalJSON v) = None /\
  Version_UnmarshalJSON v0 (fst (Version_MarshalJSON v)) = (v, None) /\
  Version_UnmarshalJSON v0 (Version_String v) = (v, None).
Proof.
  intros v v0 Ha Hb Hc. split; [reflexivity |].
  apply decode_encoded; assumption.
Qed.

Lemma version_roundtrip_all_ints_witness :
  Version_UnmarshalJSON (NewVersion 7 8 9)
    (fst (Version_MarshalJSON (NewVersion (-3) 0 (-9223372036854775808))))
    = (NewVersion (-3) 0 (-9223372036854775808), None).
Proof.
  apply (proj1 (proj2 (version_roundtrip_all_ints
                         (NewVersion (-3) 0 (-9223372036854775808))
                         (NewVersion 7 8 9)
                         ltac:(unfold is_int, minInt, maxInt; cbn; lia)
                         ltac:(unfold is_int, minInt, maxInt; cbn; lia)
                         ltac:(unfold is_int, minInt, maxInt; cbn; lia)))).
Defined.

(** X4: decoding is a normalisation.  Whenever decoding succeeds, the
    three fields are values of type int, and encoding the result and
    decoding it again gives the same result. *)
Theorem version_decode_normalises : forall (v0 v : Version) (b : list ascii),
  Version_UnmarshalJSON v0 b = (v, None) ->
  is_int (Major v) /\ is_int (Minor v) /\ is_int (Patch v) /\
  forall v1 : Version,
    Version_UnmarshalJSON v1 (fst (Version_MarshalJSON v)) = (v, None).
Proof.
  intros v0 v b. unfold Version_UnmarshalJSON.
  destruct (Bytes.Split (Bytes.Trim b dquote) ".") as [| a0 [| a1 [| a2 [| a3 r]]]];
    try discriminate.
  destruct (Strconv.Atoi a0) as [m0 [e0 |]] eqn:E0; [discriminate |].
  destruct (Strconv.Atoi a1) as [m1 [e1 |]] eqn:E1; [discriminate |].
  destruct (Strconv.Atoi a2) as [m2 [e2 |]] eqn:E2; [discriminate |].
  cbn [Major Minor Patch]. intros H. inversion H. subst v. clear H.
  apply Atoi_int_range in E0, E1, E2.
  assert (I0 : is_int m0) by (unfold is_int, minInt, maxInt; lia).
  assert (I1 : is_int m1) by (unfold is_int, minInt, maxInt; lia).
  assert (I2 : is_int m2) by (unfold is_int, minInt, maxInt; lia).
  cbn [Major Minor Patch]. repeat split; try apply I0; try apply I1; try apply I2.
  intro v1. apply decode_encoded; assumption.
Qed.

Lemma version_decode_normalises_witness :
  Version_UnmarshalJSON (NewVersion 4 5 6)
    (fst (Version_MarshalJSON (NewVersion 1 0 10)))
    = (NewVersion 1 0 10, None).
Proof.
  apply (proj2 (proj2 (proj2 (version_decode_normalises
                                (NewVersion 7 8 9) (NewVersion 1 0 10)
                                (bytes "+1.00.010") eq_refl)))
           (NewVersion 4 5 6)).
Defined.

(** X5: every error of the version decoder satisfies
    [errors.Is(err, ErrInvalidVersionFormat)].  It is the bare sentinel,
    with the target left as it was, exactly when the input does not split
    into three components; with three components it is a wrapped
    sentinel and the target is zero.  Success needs three components. *)
Theorem version_decode_errors : forall (v : Version) (b : list ascii),
  let n := List.length (Bytes.Split (Bytes.Trim b dquote) ".") in
  match Version_UnmarshalJSON v b with
  | (_, None) => n = 3%nat
  | (v', Some e) =>
      errors_Is e ErrInvalidVersionFormat = true /\
      ((n <> 3%nat /\ e = ErrInvalidVersionFormat /\ v' = v) \/
       (n = 3%nat /\ v' = NewVersion 0 0 0 /\
        exists prefix, e = ErrorfW prefix ErrInvalidVersionFormat))
  end.
Proof.
  intros v b. unfold Version_UnmarshalJSON.
  destruct (Bytes.Split (Bytes.Trim b dquote) ".") as [| a0 [| a1 [| a2 [| a3 r]]]];
    cbn [List.length];
    try (split; [reflexivity | left; repeat split; discriminate]).
  destruct (Strconv.Atoi a0) as [m0 [e0 |]];
    [split; [reflexivity | right; repeat split; eexists; reflexivity] |].
  destruct (Strconv.Atoi a1) as [m1 [e1 |]];
    [split; [reflexivity | right; repeat split; eexists; reflexivity] |].
  destruct (Strconv.Atoi a2) as [m2 [e2 |]];
    [split; [reflexivity | right; repeat split; eexists; reflexivity] |].
  reflexivity.
Qed.

(** X6: the decoder ignores double quotes at either end of its input, any
    number of them: one more quote in front or behind changes neither the
    result nor the error. *)
Theorem version_decode_ignores_quotes : forall (v : Version) (b : list ascii),
  Version_UnmarshalJSON v (dquote :: b) = Version_UnmarshalJSON v b /\
  Version_UnmarshalJSON v (b ++ [dquote]) = Version_UnmarshalJSON v b.
Proof.
  intros v b. unfold Version_UnmarshalJSON.
  rewrite Trim_cons, Trim_snoc. split; reflexivity.
Qed.

(** X7: when the input splits into three components of at most 18 bytes
    each, decoding succeeds exactly when each component is an optional
    sign followed by one or more digits. *)
Theorem version_decode_accepts_decimals :
  forall (v : Version) (b a0 a1 a2 : list ascii),
  Bytes.Split (Bytes.Trim b dquote) "." = [a0; a1; a2] ->
  (List.length a0 <= 18)%nat -> (List.length a1 <= 18)%nat ->
  (List.length a2 <= 18)%nat ->
  (snd (Version_UnmarshalJSON v b) = None <->
   is_decimal a0 && is_decimal a1 && is_decimal a2 = true).
Proof.
  intros v b a0 a1 a2 Hsplit L0 L1 L2. unfold Version_UnmarshalJSON.
  rewrite Hsplit.
  pose proof (Atoi_not_decimal a0) as N0.
  pose proof (Atoi_not_decimal a1) as N1.
  pose proof (Atoi_not_decimal a2) as N2.
  pose proof (fun H => Atoi_decimal_short a0 H L0) as S0.
  pose proof (fun H => Atoi_decimal_short a1 H L1) as S1.
  pose proof (fun H => Atoi_decimal_short a2 H L2) as S2.
  destruct (Strconv.Atoi a0) as [m0 e0], (Strconv.Atoi a1) as [m1 e1],
    (Strconv.Atoi a2) as [m2 e2].
  cbn [snd] in *.
  destruct (is_decimal a0), (is_decimal a1), (is_decimal a2);
    try rewrite (S0 eq_refl); try rewrite (S1 eq_refl);
    try rewrite (S2 eq_refl); cbn;
    try (split; [reflexivity | reflexivity]);
    destruct e0, e1, e2; cbn; split; intro H; try discriminate H;
    try reflexivity;
    solve [exfalso; apply N0; reflexivity | exfalso; apply N1; reflexivity
          | exfalso; apply N2; reflexivity].
Qed.

Lemma version_decode_accepts_decimals_witness :
  snd (Version_UnmarshalJSON (NewVersion 7 8 9) (bytes "-1.+02.003")) = None.
Proof.
  apply (proj2 (version_decode_accepts_decimals (NewVersion 7 8 9)
                  (bytes "-1.+02.003") (bytes "-1") (bytes "+02") (bytes "003")
                  eq_refl ltac:(cbn; lia) ltac:(cbn; lia) ltac:(cbn; lia))).
  reflexivity.
Defined.

(** ** A device over time *)

Lemma RequestStatus_frame : forall d e,
  seen (rr_device (RequestStatus d e)) = seen d /\
  identity_of (rr_device (RequestStatus d e)) = identity_of d /\
  light_of (rr_device (RequestStatus d e)) = light_of d /\
  (statusUpdate (rr_device (RequestStatus d e)) = statusUpdate d \/
   statusUpdate (rr_device (RequestStatus d e)) = tl (statusUpdate d)).
Proof.
  intros d e. unfold RequestStatus, wait_status. cbn.
  destruct (send_can_proceed (env_command e)
            && (negb (env_done_at_send e) || env_pick_first e));
    [| destruct (env_done_at_send e); cbn; auto].
  destruct (cmd_closed (env_command e)); [cbn; auto |].
  destruct (statusUpdate d) as [| t q] eqn:Hq,
    (env_done_at_send e || env_done_at_wait e);
    try destruct (env_pick_first_wait e); try destruct (env_wake e);
    cbn; rewrite ?Hq; auto.
Qed.

Lemma handler_step_slot : forall now now' parked d msg,
  (List.length (statusUpdate d) <= 1)%nat ->
  (List.length (statusUpdate (fst (handler_step now now' parked d msg))) <= 1)%nat.
Proof.
  intros now now' parked d msg H. unfold handler_step.
  destruct (Payload msg) as [w | p | p]; cbn; try exact H.
  destruct parked; cbn; [exact H |].
  destruct (statusUpdate d) as [| t q]; cbn in *; lia.
Qed.

(** X8: the status channel of a device the listener created never holds
    more than one signal, whatever the worker applies and however many
    RequestStatus calls run, in any order. *)
Theorem status_channel_capacity : forall (src : string) (evs : list DeviceEvent),
  (List.length (statusUpdate (device_run (newDevice src) evs))
   <= statusUpdate_cap)%nat.
Proof.
  intros src evs. unfold device_run, statusUpdate_cap.
  assert (H0 : (List.length (statusUpdate (newDevice src)) <= 1)%nat)
    by (cbn; lia).
  revert H0. generalize (newDevice src) as d.
  induction evs as [| ev r IH]; intros d Hd; [exact Hd |].
  cbn [fold_left]. apply IH.
  destruct ev as [now now' parked msg | e]; cbn [device_step].
  - apply handler_step_slot. exact Hd.
  - destruct (RequestStatus_frame d e) as (_ & _ & _ & [-> | ->]);
      [exact Hd |].
    destruct (statusUpdate d); cbn in *; lia.
Qed.

Lemma light_frame : forall evs d,
  forallb (fun ev => negb (applies_status ev)) evs = true ->
  light_of (device_run d evs) = light_of d.
Proof.
  unfold device_run.
  induction evs as [| ev r IH]; intros d H; [reflexivity |].
  cbn [forallb] in H. apply andb_true_iff in H. destruct H as [Hev Hr].
  cbn [fold_left]. rewrite (IH _ Hr).
  destruct ev as [now now' parked msg | e]; cbn [device_step].
  - unfold applies_status, is_status in Hev. unfold handler_step.
    destruct (Payload msg); [reflexivity | reflexivity | discriminate Hev].
  - apply RequestStatus_frame.
Qed.

Lemma identity_frame : forall evs d,
  forallb (fun ev => negb (applies_scan ev)) evs = true ->
  identity_of (device_run d evs) = identity_of d.
Proof.
  unfold device_run.
  induction evs as [| ev r IH]; intros d H; [reflexivity |].
  cbn [forallb] in H. apply andb_true_iff in H. destruct H as [Hev Hr].
  cbn [fold_left]. rewrite (IH _ Hr).
  destruct ev as [now now' parked msg | e]; cbn [device_step].
  - unfold applies_scan, is_scan in Hev. unfold handler_step.
    destruct (Payload msg); [reflexivity | discriminate Hev |].
    destruct parked; [reflexivity |].
    destruct (List.length (statusUpdate d) <? statusUpdate_cap)%nat; reflexivity.
  - apply RequestStatus_frame.
Qed.

Lemma device_run_app : forall d evs1 ev evs2,
  device_run d (evs1 ++ ev :: evs2)
    = device_run (device_step (device_run d evs1) ev) evs2.
Proof.
  intros d evs1 ev evs2. unfold device_run. rewrite fold_left_app. reflexivity.
Qed.

(** X9: the cached light state (on/off, brightness, colour, kelvin) of a
    device is that of the last status response its worker applied: scan
    responses, unknown payloads and RequestStatus calls that come later
    do not touch it.  Toggle therefore takes its direction from the
    on/off value of that response. *)
Theorem light_follows_last_status :
  forall (d : Device) (evs1 evs2 : list DeviceEvent) (now now' : time)
         (parked : bool) (src : string) (p : devStatusResponse)
         (ch : CommandChan),
  forallb (fun ev => negb (applies_status ev)) evs2 = true ->
  let d' := device_run d
              (evs1 ++ Applies now now' parked {| IP := src; Payload := PStatus p |}
                    :: evs2) in
  light_of d' = (ds_OnOff p, ds_Brightness p, ds_Color p, ds_ColorKelvin p) /\
  Toggle d' ch = if ds_OnOff p =? 1 then TurnOff d' ch else TurnOn d' ch.
Proof.
  intros d evs1 evs2 now now' parked src p ch H d'.
  assert (L : light_of d' =
              (ds_OnOff p, ds_Brightness p, ds_Color p, ds_ColorKelvin p)).
  { subst d'. rewrite device_run_app, (light_frame evs2 _ H).
    cbn [device_step]. unfold handler_step. cbn [Payload].
    destruct parked; [reflexivity |].
    destruct (List.length (statusUpdate (device_run d evs1)) <? statusUpdate_cap)%nat;
      reflexivity. }
  split; [exact L |].
  unfold Toggle. unfold light_of in L. inversion L as [[Hs Hb Hc Hk]].
  reflexivity.
Qed.

Lemma light_follows_last_status_witness :
  light_of (device_run (newDevice "192.168.1.23")
              ([] ++ Applies 10 11 false status_message
                  :: [Requests env_no_response]))
    = (1, 100, mkColor 255 0 0, 7200).
Proof.
  apply (proj1 (light_follows_last_status (newDevice "192.168.1.23") []
                  [Requests env_no_response] 10 11 false "192.168.1.23"
                  status_on queue_ready eq_refl)).
Defined.

(** X10: the identity of a device (ip, device id, sku and the four
    versions) is that of the last scan response its worker applied;
    status responses, unknown payloads and RequestStatus calls do not
    touch it, and a device that has had no scan response applied keeps
    the identity it started with. *)
Theorem identity_follows_last_scan :
  forall (d : Device) (evs1 evs2 : list DeviceEvent) (now now' : time)
         (parked : bool) (src : string) (p : scanResponse),
  forallb (fun ev => negb (applies_scan ev)) evs2 = true ->
  identity_of (device_run d
                 (evs1 ++ Applies now now' parked {| IP := src; Payload := PScan p |}
                       :: evs2))
    = (sr_IP p, sr_DeviceID p, sr_SKU p,
       (sr_BleVersionHard p, sr_BleVersionSoft p,
        sr_WifiVersionHard p, sr_WifiVersionSoft p)) /\
  identity_of (device_run d evs2) = identity_of d.
Proof.
  intros d evs1 evs2 now now' parked src p H. split.
  - rewrite device_run_app, (identity_frame evs2 _ H). reflexivity.
  - apply identity_frame. exact H.
Qed.

Lemma identity_follows_last_scan_witness :
  identity_of (device_run (newDevice "192.168.1.23") [Requests env_no_response])
    = identity_of (newDevice "192.168.1.23").
Proof.
  apply (proj2 (identity_follows_last_scan (newDevice "192.168.1.23") []
                  [Requests env_no_response] 10 11 false "192.168.1.23"
                  (mkScanResponse "192.168.1.23" "1F:80" "H6159"
                     Version_zero Version_zero Version_zero Version_zero)
                  eq_refl)).
Defined.

(** ** Command methods *)

Lemma run_command_shape : forall (k : command) (d : Device),
  exists (w : wrapper) (msg : string), forall ch,
    run_command k d ch =
      select_send_or_default ch {| IP := ip d; Payload := PWrapper w |}
        (Errorf msg).
Proof.
  intros k d. destruct k; cbn [run_command];
    try (do 2 eexists; intro ch; reflexivity).
  unfold Toggle. destruct (state d =? 1); do 2 eexists; intro ch; reflexivity.
Qed.

(** X11: each of the six command methods (TurnOn, TurnOff, Toggle,
    SetBrightness, SetColor, SetColorKelvin) offers exactly one message,
    addressed to the device's ip, without ever waiting: with the
    dispatcher ready it is handed over and nil is returned; with the
    dispatcher busy nothing is queued and an error is returned; on a
    closed queue the call panics.  Nil is returned exactly when the
    message was handed over. *)
Theorem commands_never_wait : forall (k : command) (d : Device) (ch : CommandChan),
  (cmd_closed ch = false -> cmd_receiver_parked ch = true ->
     result (run_command k d ch) = Returned None /\
     exists w, sent (run_command k d ch)
               = Some {| IP := ip d; Payload := PWrapper w |}) /\
  (cmd_closed ch = false -> cmd_receiver_parked ch = false ->
     sent (run_command k d ch) = None /\
     exists msg, result (run_command k d ch) = Returned (Some (Errorf msg))) /\
  (cmd_closed ch = true ->
     run_command k d ch = {| sent := None; result := Panicked |}) /\
  (result (run_command k d ch) = Returned None <->
   sent (run_command k d ch) <> None) /\
  (forall m, sent (run_command k d ch) = Some m -> IP m = ip d).
Proof.
  intros k d ch. destruct (run_command_shape k d) as (w & msg & E).
  rewrite E. unfold select_send_or_default, send_can_proceed.
  destruct (cmd_closed ch), (cmd_receiver_parked ch); cbn;
    repeat split; intros; try discriminate; try congruence; eauto;
    match goal with
    | H : Some _ = Some _ |- _ => inversion H; reflexivity
    end.
Qed.

Lemma commands_never_wait_witness :
  sent (run_command (CmdSetBrightness 80) (lamp 1) queue_blocked) = None /\
  run_command (CmdSetColor (mkColor 255 0 0)) (lamp 1)
    {| cmd_closed := true; cmd_receiver_parked := false |}
    = {| sent := None; result := Panicked |}.
Proof.
  split.
  - apply (proj1 (proj2 (commands_never_wait (CmdSetBrightness 80) (lamp 1)
                           queue_blocked))); reflexivity.
  - apply (proj1 (proj2 (proj2 (commands_never_wait
                                  (CmdSetColor (mkColor 255 0 0)) (lamp 1)
                                  {| cmd_closed := true;
                                     cmd_receiver_parked := false |}))));
      reflexivity.
Defined.

(** X12: RequestStatus changes nothing of the device but the status
    channel, from which it takes at most the oldest signal.  It reports
    success only after its query was handed to the dispatcher; when no
    query was handed over, and when it times out, the device is exactly
    as before, and a timeout happens only on an empty status channel. *)
Theorem RequestStatus_effects : forall (d : Device) (e : RequestEnv),
  seen (rr_device (RequestStatus d e)) = seen d /\
  identity_of (rr_device (RequestStatus d e)) = identity_of d /\
  light_of (rr_device (RequestStatus d e)) = light_of d /\
  (statusUpdate (rr_device (RequestStatus d e)) = statusUpdate d \/
   statusUpdate (rr_device (RequestStatus d e)) = tl (statusUpdate d)) /\
  (rr_result (RequestStatus d e) = Returned None ->
     rr_sent (RequestStatus d e) = Some (status_query d)) /\
  (rr_sent (RequestStatus d e) = None -> rr_device (RequestStatus d e) = d) /\
  (rr_result (RequestStatus d e) = Returned (Some err_wait_timeout) ->
     rr_device (RequestStatus d e) = d /\ statusUpdate d = [] /\
     rr_sent (RequestStatus d e) = Some (status_query d)).
Proof.
  intros d e.
  destruct (RequestStatus_frame d e) as (F1 & F2 & F3 & F4).
  split; [exact F1 |]. split; [exact F2 |]. split; [exact F3 |].
  split; [exact F4 |]. clear F1 F2 F3 F4.
  unfold RequestStatus, wait_status. cbn.
  destruct (send_can_proceed (env_command e)
            && (negb (env_done_at_send e) || env_pick_first e)).
  - destruct (cmd_closed (env_command e)); cbn;
      [repeat split; intros; discriminate || reflexivity |].
    destruct (statusUpdate d) as [| t q] eqn:Hq,
      (env_done_at_send e || env_done_at_wait e);
      try destruct (env_pick_first_wait e); try destruct (env_wake e);
      cbn; repeat split; intros; try discriminate; try reflexivity.
  - destruct (env_done_at_send e); cbn;
      repeat split; intros; try discriminate; try reflexivity.
Qed.

Lemma RequestStatus_effects_witness :
  rr_device (RequestStatus (lamp 0) env_no_response) = lamp 0.
Proof.
  apply (proj2 (proj2 (proj2 (proj2 (proj2 (proj2
           (RequestStatus_effects (lamp 0) env_no_response))))))).
  reflexivity.
Defined.

(** ** Scheduler and dispatcher *)

Lemma scheduler_loop_sent : forall msg evs,
  fst (scheduler_loop msg evs) = repeat msg (taken_ticks evs).
Proof.
  intros msg. induction evs as [| [[|] |] r IH]; cbn; try reflexivity.
  destruct (scheduler_loop msg r) as [ms e]. cbn in *. rewrite IH. reflexivity.
Qed.

Lemma scheduler_loop_end : forall msg evs,
  snd (scheduler_loop msg evs) =
    if meets_closed evs then Crashed
    else if meets_cancel evs then Stopped else Running.
Proof.
  intros msg. induction evs as [| [[|] |] r IH]; cbn; try reflexivity.
  destruct (scheduler_loop msg r) as [ms e]. cbn in *. exact IH.
Qed.

Lemma dispatch_writes_to_target : forall cmd e t data ok,
  In (UDPWrite t data ok) (dispatch_step cmd e) -> t = target_of cmd.
Proof.
  intros cmd e t data ok. unfold dispatch_step.
  destruct (de_marshal e) as [bs |]; cbn.
  - destruct (de_resolve_ok e), (de_dial_ok e), (de_write_ok e); cbn;
      intros H; repeat (destruct H as [H | H]; try discriminate H);
      try contradiction; inversion H; reflexivity.
  - intros [H | []]. discriminate H.
Qed.

Lemma scheduler_request :
  newAPIRequest "scan" (scanRequest "reserve")
    = (Some {| CMD := "scan";
               Data := bytes "{" ++ dquote :: bytes "account_topic"
                         ++ dquote :: bytes ":" ++ dquote
                         :: bytes "reserve" ++ dquote :: bytes "}" |}, None).
Proof. reflexivity. Qed.

(** X13: as long as the dispatcher takes its sends, the scan scheduler
    puts the same discovery request on the queue once at start and once
    more for every tick, and nothing after the cancellation, at which it
    returns.  A send that meets the closed queue panics and ends it, and
    that is the only way it crashes.  Every request the dispatcher took
    from it is addressed to the multicast group, so whatever the
    dispatcher writes for it goes to 239.255.255.250:4001. *)
Theorem scan_scheduler_messages :
  forall (first : SendEnd) (evs : list SchedulerEvent),
  fst (scan_scheduler first evs) =
    match first with
    | Taken => repeat scan_request_message (S (taken_ticks evs))
    | QueueClosed => []
    end /\
  snd (scan_scheduler first evs) =
    match first with
    | QueueClosed => Crashed
    | Taken =>
        if meets_closed evs then Crashed
        else if meets_cancel evs then Stopped else Running
    end /\
  (forall pre post,
     scan_scheduler first (pre ++ Cancel :: post)
       = scan_scheduler first (pre ++ [Cancel])) /\
  Forall (fun m =>
            forall e : DispatchEnv,
              Forall (fun eff =>
                        match eff with
                        | UDPWrite t _ _ => t = "239.255.255.250:4001"%string
                        | LogError _ => True
                        end) (dispatch_step m e))
         (fst (scan_scheduler first evs)).
Proof.
  intros first evs.
  assert (E : forall evs',
            scan_scheduler first evs' =
              match first with
              | QueueClosed => ([], Crashed)
              | Taken =>
                  (scan_request_message
                     :: fst (scheduler_loop scan_request_message evs'),
                   snd (scheduler_loop scan_request_message evs'))
              end).
  { intro evs'. unfold scan_scheduler. rewrite scheduler_request.
    destruct first; [| reflexivity].
    fold scan_request_message.
    destruct (scheduler_loop scan_request_message evs'); reflexivity. }
  assert (Hsent : fst (scan_scheduler first evs) =
                  match first with
                  | Taken => repeat scan_request_message (S (taken_ticks evs))
                  | QueueClosed => []
                  end).
  { rewrite E. destruct first; [| reflexivity].
    cbn [fst]. rewrite scheduler_loop_sent. reflexivity. }
  split; [exact Hsent |]. split; [| split].
  - rewrite E. destruct first; [| reflexivity].
    cbn [snd]. apply scheduler_loop_end.
  - intros pre post. rewrite !E. destruct first; [| reflexivity].
    assert (L : forall tail,
              scheduler_loop scan_request_message (pre ++ Cancel :: tail)
                = scheduler_loop scan_request_message (pre ++ [Cancel])).
    { intro tail. induction pre as [| [[|] |] r IH]; cbn; try reflexivity.
      rewrite IH. reflexivity. }
    rewrite (L post). reflexivity.
  - rewrite Hsent. destruct first; [| constructor].
    apply Forall_forall. intros m Hin.
    apply repeat_spec in Hin. subst m. intro e.
    apply Forall_forall. intros [msg | t data ok] Heff; [exact I |].
    apply dispatch_writes_to_target in Heff. exact Heff.
Qed.

(** X14: whatever command method put a message on the queue, the
    dispatcher writes it to port 4003 of the device's ip (to port 4001
    only if that ip is the multicast address), and to no other target. *)
Theorem command_reaches_device_port :
  forall (k : command) (d : Device) (ch : CommandChan) (m : Message)
         (e : DispatchEnv) (t : string) (data : list ascii) (ok : bool),
  sent (run_command k d ch) = Some m ->
  In (UDPWrite t data ok) (dispatch_step m e) ->
  (ip d <> "239.255.255.250"%string -> t = (ip d ++ ":4003")%string) /\
  (ip d = "239.255.255.250"%string -> t = "239.255.255.250:4001"%string).
Proof.
  intros k d ch m e t data ok Hsent Hw.
  apply dispatch_writes_to_target in Hw. subst t.
  destruct (run_command_shape k d) as (w & msg & E). rewrite E in Hsent.
  unfold select_send_or_default in Hsent.
  destruct (send_can_proceed ch); [| discriminate].
  destruct (cmd_closed ch); [discriminate |].
  cbn in Hsent. inversion Hsent. subst m.
  unfold target_of, multicast_ip. cbn [IP].
  destruct (String.eqb_spec (ip d) "239.255.255.250") as [Heq | Hne].
  - split; [contradiction | intros _; rewrite Heq; reflexivity].
  - split; [reflexivity | contradiction].
Qed.

Lemma command_reaches_device_port_witness :
  "192.168.1.23:4003"%string = ("192.168.1.23" ++ ":4003")%string.
Proof.
  apply (proj1 (command_reaches_device_port CmdToggle (lamp 1) queue_ready
                  {| IP := "192.168.1.23"; Payload := turn_payload "0" |}
                  (mkDispatchEnv (Some (bytes "x")) true true true)
                  "192.168.1.23:4003" (bytes "x") true
                  eq_refl ltac:(cbn; auto))).
  cbn. discriminate.
Defined.

(** X15: the dispatcher makes at most one write per message and never
    retries.  It writes, once and to the message's target, exactly when
    encoding, resolving and dialling all succeed; it logs exactly one
    error when any step fails and none when all succeed. *)
Theorem dispatcher_single_attempt : forall (cmd : Message) (e : DispatchEnv),
  (List.length (filter is_write (dispatch_step cmd e)) <= 1)%nat /\
  filter is_write (dispatch_step cmd e) =
    match de_marshal e with
    | Some data =>
        if de_resolve_ok e && de_dial_ok e
        then [UDPWrite (target_of cmd) data (de_write_ok e)]
        else []
    | None => []
    end /\
  List.length (filter is_log (dispatch_step cmd e)) =
    match de_marshal e with
    | Some _ =>
        if de_resolve_ok e && de_dial_ok e && de_write_ok e then 0%nat else 1%nat
    | None => 1%nat
    end.
Proof.
  intros cmd e. unfold dispatch_step.
  destruct (de_marshal e) as [data |]; cbn; [| repeat split; lia].
  destruct (de_resolve_ok e), (de_dial_ok e), (de_write_ok e); cbn;
    repeat split; lia.
Qed.

(** ** Registry *)

Lemma find_ip_by : forall ds x i, find_ip ds x i = find_by ip ds x i.
Proof.
  induction ds as [| d r IH]; intros x i; [reflexivity |].
  cbn. rewrite IH. reflexivity.
Qed.

Lemma find_id_by : forall ds x i, find_id ds x i = find_by deviceID ds x i.
Proof.
  induction ds as [| d r IH]; intros x i; [reflexivity |].
  cbn. rewrite IH. reflexivity.
Qed.

Section FirstMatch.

Variable key : Device -> string.

Lemma find_by_none : forall ds x i,
  find_by key ds x i = None <-> (forall d, In d ds -> key d <> x).
Proof.
  induction ds as [| d r IH]; intros x i; cbn.
  - split; [intros _ d [] | reflexivity].
  - destruct (String.eqb_spec (key d) x) as [E | E].
    + split; [discriminate |]. intros H. exfalso. apply (H d); auto.
    + rewrite IH. split.
      * intros H d' [<- | Hin]; [exact E | apply H; exact Hin].
      * intros H d' Hin. apply H. right. exact Hin.
Qed.

Lemma find_by_some : forall ds x i j,
  find_by key ds x i = Some j ->
  (i <= j)%nat /\
  (exists d, nth_error ds (j - i) = Some d /\ key d = x) /\
  (forall n d, (n < j - i)%nat -> nth_error ds n = Some d -> key d <> x).
Proof.
  induction ds as [| d r IH]; intros x i j H; [discriminate |].
  cbn in H. destruct (String.eqb_spec (key d) x) as [E | E].
  - inversion H. subst j. rewrite Nat.sub_diag. split; [lia |].
    split; [exists d; split; [reflexivity | exact E] |].
    intros n d' Hn. lia.
  - destruct (IH x (S i) j H) as (Hle & (d0 & Hd0 & Hk) & Hbefore).
    split; [lia |].
    replace (j - i)%nat with (S (j - S i)) by lia.
    split; [exists d0; split; [exact Hd0 | exact Hk] |].
    intros [| n] d' Hn Hnth.
    + cbn in Hnth. inversion Hnth. subst d'. exact E.
    + cbn in Hnth. apply (Hbefore n d'); [lia | exact Hnth].
Qed.

Lemma find_by_app : forall ds tail x i,
  find_by key (ds ++ tail) x i =
    match find_by key ds x i with
    | Some j => Some j
    | None => find_by key tail x (i + List.length ds)
    end.
Proof.
  induction ds as [| d r IH]; intros tail x i.
  - cbn. rewrite Nat.add_0_r. reflexivity.
  - cbn. destruct (String.eqb (key d) x); [reflexivity |].
    rewrite IH. replace (S i + List.length r)%nat
      with (i + S (List.length r))%nat by lia.
    reflexivity.
Qed.

End FirstMatch.

(** X16: DeviceByIP and DeviceByID return the first device of the
    registry whose ip, respectively device id, is the one asked for, and
    fail with ErrNoDeviceFound exactly when no device has it. *)
Theorem lookup_first_match : forall (c : Controller) (x : string),
  match DeviceByIP c x with
  | (Some i, None) =>
      (exists d, nth_error (devices c) i = Some d /\ ip d = x) /\
      (forall n d, (n < i)%nat -> nth_error (devices c) n = Some d -> ip d <> x)
  | (None, Some e) =>
      e = ErrNoDeviceFound /\ (forall d, In d (devices c) -> ip d <> x)
  | _ => False
  end /\
  match DeviceByID c x with
  | (Some i, None) =>
      (exists d, nth_error (devices c) i = Some d /\ deviceID d = x) /\
      (forall n d, (n < i)%nat -> nth_error (devices c) n = Some d ->
                   deviceID d <> x)
  | (None, Some e) =>
      e = ErrNoDeviceFound /\ (forall d, In d (devices c) -> deviceID d <> x)
  | _ => False
  end.
Proof.
  intros c x. unfold DeviceByIP, DeviceByID. rewrite find_ip_by, find_id_by.
  split.
  - destruct (find_by ip (devices c) x 0) as [i |] eqn:E.
    + apply find_by_some in E. rewrite Nat.sub_0_r in E.
      destruct E as (_ & H1 & H2). split; assumption.
    + split; [reflexivity |]. exact (proj1 (find_by_none ip (devices c) x 0) E).
  - destruct (find_by deviceID (devices c) x 0) as [i |] eqn:E.
    + apply find_by_some in E. rewrite Nat.sub_0_r in E.
      destruct E as (_ & H1 & H2). split; assumption.
    + split; [reflexivity |]. exact (proj1 (find_by_none deviceID (devices c) x 0) E).
Qed.

(** ** Listener and workers *)

Lemma listener_registry : forall c dg,
  devices (lr_controller (listener_step c (ReadOk dg))) =
    devices c ++ match find_by ip (devices c) (dg_src dg) 0 with
                 | Some _ => []
                 | None => [newDevice (dg_src dg)]
                 end.
Proof.
  intros c dg. unfold listener_step, DeviceByIP. rewrite find_ip_by.
  destruct (find_by ip (devices c) (dg_src dg) 0) as [i |];
    destruct (dg_envelope dg) as [w |];
    try destruct (String.eqb (CMD w) "scan");
    try destruct (String.eqb (CMD w) "devStatus");
    try destruct (dg_scan dg); try destruct (dg_status dg);
    cbn; rewrite ?app_nil_r; reflexivity.
Qed.

Lemma listener_routed : forall c dg,
  lr_routed (listener_step c (ReadOk dg)) =
    let i := match find_by ip (devices c) (dg_src dg) 0 with
             | Some j => j
             | None => List.length (devices c)
             end in
    match dg_envelope dg with
    | None => None
    | Some w =>
        if String.eqb (CMD w) "scan" then
          match dg_scan dg with
          | None => None
          | Some p => Some (i, {| IP := dg_src dg; Payload := PScan p |})
          end
        else if String.eqb (CMD w) "devStatus" then
          match dg_status dg with
          | None => None
          | Some p => Some (i, {| IP := dg_src dg; Payload := PStatus p |})
          end
        else None
    end.
Proof.
  intros c dg. unfold listener_step, DeviceByIP. rewrite find_ip_by.
  destruct (find_by ip (devices c) (dg_src dg) 0) as [i |];
    destruct (dg_envelope dg) as [w |];
    try destruct (String.eqb (CMD w) "scan");
    try destruct (String.eqb (CMD w) "devStatus");
    try destruct (dg_scan dg); try destruct (dg_status dg);
    reflexivity.
Qed.

Lemma find_after_listener : forall c dg,
  find_by ip (devices (lr_controller (listener_step c (ReadOk dg))))
    (dg_src dg) 0 =
    Some match find_by ip (devices c) (dg_src dg) 0 with
         | Some j => j
         | None => List.length (devices c)
         end.
Proof.
  intros c dg. rewrite listener_registry, find_by_app.
  destruct (find_by ip (devices c) (dg_src dg) 0) as [j |]; [reflexivity |].
  cbn. rewrite String.eqb_refl. reflexivity.
Qed.

(** X17: every datagram the listener reads leaves its source registered:
    the registry is the old one, followed by one fresh device holding
    only the source address when that address was unknown, and DeviceByIP
    of the source succeeds at once.  A failed read changes nothing. *)
Theorem listener_registers_source : forall (c : Controller) (dg : Datagram),
  devices (lr_controller (listener_step c (ReadOk dg))) =
    devices c ++ match fst (DeviceByIP c (dg_src dg)) with
                 | Some _ => []
                 | None => [newDevice (dg_src dg)]
                 end /\
  (exists i,
     DeviceByIP (lr_controller (listener_step c (ReadOk dg))) (dg_src dg)
       = (Some i, None) /\
     (i < List.length (devices (lr_controller (listener_step c (ReadOk dg)))))%nat) /\
  listener_step c ReadFailed
    = {| lr_controller := c; lr_spawned := None; lr_routed := None |}.
Proof.
  intros c dg. split; [| split; [| reflexivity]].
  - rewrite listener_registry. unfold DeviceByIP. rewrite find_ip_by.
    destruct (find_by ip (devices c) (dg_src dg) 0); reflexivity.
  - unfold DeviceByIP. rewrite find_ip_by, find_after_listener.
    eexists. split; [reflexivity |].
    rewrite listener_registry.
    destruct (find_by ip (devices c) (dg_src dg) 0) as [j |] eqn:E.
    + apply find_by_some in E. destruct E as (_ & (d & Hd & _) & _).
      rewrite Nat.sub_0_r in Hd. rewrite app_nil_r.
      apply nth_error_Some. congruence.
    + rewrite length_app. cbn. lia.
Qed.

(** X18: the listener never registers an address twice: if the ips of the
    registry are pairwise different before an iteration, they are so
    after it. *)
Theorem listener_keeps_ips_distinct : forall (c : Controller) (r : ReadResult),
  NoDup (map ip (devices c)) ->
  NoDup (map ip (devices (lr_controller (listener_step c r)))).
Proof.
  intros c [| dg] H; [exact H |].
  rewrite listener_registry.
  destruct (find_by ip (devices c) (dg_src dg) 0) as [j |] eqn:E.
  - rewrite app_nil_r. exact H.
  - rewrite map_app. cbn [map newDevice ip].
    apply NoDup_app; [exact H | repeat constructor; intros [] |].
    intros a Ha [<- | []]. apply in_map_iff in Ha.
    destruct Ha as (d & Hd & Hin).
    exact (proj1 (find_by_none ip (devices c) (dg_src dg) 0) E d Hin Hd).
Qed.

Lemma listener_keeps_ips_distinct_witness :
  NoDup (map ip (devices (lr_controller
                            (listener_step {| devices := [lamp 1] |}
                               (ReadOk stray_datagram))))).
Proof.
  apply (listener_keeps_ips_distinct {| devices := [lamp 1] |}
           (ReadOk stray_datagram)).
  repeat constructor. intros [].
Defined.

(** X19: the listener routes a datagram to a worker exactly when its
    envelope decodes, its command is scan or devStatus and the payload of
    that command decodes.  The message then goes to the device registered
    for the source address, carries that address, and its payload is the
    decoded scan result for scan and the decoded status for devStatus. *)
Theorem listener_routing : forall (c : Controller) (dg : Datagram),
  match lr_routed (listener_step c (ReadOk dg)) with
  | None =>
      decode_fails dg = true \/
      exists w, dg_envelope dg = Some w /\ is_routed_cmd (CMD w) = false
  | Some (i, m) =>
      decode_fails dg = false /\
      IP m = dg_src dg /\
      DeviceByIP (lr_controller (listener_step c (ReadOk dg))) (dg_src dg)
        = (Some i, None) /\
      exists w, dg_envelope dg = Some w /\
        ((CMD w = "scan"%string /\
          exists p, dg_scan dg = Some p /\ Payload m = PScan p) \/
         (CMD w = "devStatus"%string /\
          exists p, dg_status dg = Some p /\ Payload m = PStatus p))
  end.
Proof.
  intros c dg.
  assert (Hby : DeviceByIP (lr_controller (listener_step c (ReadOk dg))) (dg_src dg)
                = (Some match find_by ip (devices c) (dg_src dg) 0 with
                        | Some j => j
                        | None => List.length (devices c)
                        end, None)).
  { unfold DeviceByIP. rewrite find_ip_by, find_after_listener. reflexivity. }
  rewrite Hby, listener_routed. unfold decode_fails, is_routed_cmd. cbv zeta.
  destruct (dg_envelope dg) as [w |]; [| left; reflexivity].
  destruct (String.eqb_spec (CMD w) "scan") as [Es | Es].
  - destruct (dg_scan dg) as [p |]; [| left; reflexivity].
    repeat split. exists w. split; [reflexivity |]. left.
    split; [exact Es |]. exists p. split; reflexivity.
  - destruct (String.eqb_spec (CMD w) "devStatus") as [Ed | Ed].
    + destruct (dg_status dg) as [p |]; [| left; reflexivity].
      repeat split. exists w. split; [reflexivity |]. right.
      split; [exact Ed |]. exists p. split; reflexivity.
    + right. exists w. split; [reflexivity |].
      apply orb_false_iff. split; apply String.eqb_neq; assumption.
Qed.

Lemma update_nth_length : forall f ds i,
  List.length (update_nth i f ds) = List.length ds.
Proof.
  induction ds as [| d r IH]; intros [| j]; cbn; try reflexivity.
  rewrite IH. reflexivity.
Qed.

Lemma update_nth_same : forall f ds i d,
  nth_error ds i = Some d -> nth_error (update_nth i f ds) i = Some (f d).
Proof.
  induction ds as [| d0 r IH]; intros [| j] d H; cbn in *; try discriminate.
  - inversion H. reflexivity.
  - apply IH. exact H.
Qed.

Lemma update_nth_other : forall f ds i j,
  i <> j -> nth_error (update_nth i f ds) j = nth_error ds j.
Proof.
  induction ds as [| d0 r IH]; intros [| i] [| j] H; cbn; try reflexivity.
  - contradiction.
  - apply IH. congruence.
Qed.

Lemma update_nth_last : forall f ds d,
  update_nth (List.length ds) f (ds ++ [d]) = ds ++ [f d].
Proof.
  induction ds as [| d0 r IH]; intro d; cbn; [reflexivity |].
  rewrite IH. reflexivity.
Qed.

(** X20: a scan response from an address the registry does not know
    leaves, once its worker has applied it, exactly one new device at the
    end of the registry, carrying the identity of the payload and no
    light state.  The device is found under the ip the payload names:
    DeviceByIP of the source address finds it exactly when the payload's
    ip is the source address, and DeviceByID finds it under the payload's
    id when no older device has that id. *)
Theorem discovery_registers_payload_identity :
  forall (now now' : time) (parked : bool) (c : Controller) (dg : Datagram)
         (w : wrapper) (p : scanResponse),
  dg_envelope dg = Some w -> CMD w = "scan"%string -> dg_scan dg = Some p ->
  DeviceByIP c (dg_src dg) = (None, Some ErrNoDeviceFound) ->
  exists d' : Device,
    devices (receive now now' parked c dg) = devices c ++ [d'] /\
    identity_of d' =
      (sr_IP p, sr_DeviceID p, sr_SKU p,
       (sr_BleVersionHard p, sr_BleVersionSoft p,
        sr_WifiVersionHard p, sr_WifiVersionSoft p)) /\
    seen d' = now /\
    light_of d' = (0, 0, Color_zero, 0) /\
    statusUpdate d' = [] /\
    (DeviceByIP (receive now now' parked c dg) (dg_src dg)
       = (Some (List.length (devices c)), None) <-> sr_IP p = dg_src dg) /\
    ((forall d, In d (devices c) -> deviceID d <> sr_DeviceID p) ->
     DeviceByID (receive now now' parked c dg) (sr_DeviceID p)
       = (Some (List.length (devices c)), None)).
Proof.
  intros now now' parked c dg w p Henv Hcmd Hscan Hnew.
  assert (Hfind : find_by ip (devices c) (dg_src dg) 0 = None).
  { unfold DeviceByIP in Hnew. rewrite find_ip_by in Hnew.
    destruct (find_by ip (devices c) (dg_src dg) 0); [discriminate | reflexivity]. }
  assert (Hrecv : devices (receive now now' parked c dg) =
                  devices c ++
                    [fst (handler_step now now' parked (newDevice (dg_src dg))
                            {| IP := dg_src dg; Payload := PScan p |})]).
  { unfold receive. rewrite listener_routed, Henv, Hcmd, Hscan, Hfind.
    cbn [String.eqb Ascii.eqb Bool.eqb]. cbv zeta. unfold worker_apply. cbn [fst snd devices].
    rewrite listener_registry, Hfind. apply update_nth_last. }
  eexists. split; [exact Hrecv |]. cbn [handler_step Payload fst].
  split; [reflexivity |]. split; [reflexivity |]. split; [reflexivity |].
  split; [reflexivity |]. split.
  - unfold DeviceByIP. rewrite find_ip_by, Hrecv, find_by_app, Hfind.
    cbn [find_by handler_step Payload fst ip].
    destruct (String.eqb_spec (sr_IP p) (dg_src dg)) as [E | E].
    + split; [intros _; exact E | intros _; reflexivity].
    + split; [discriminate | contradiction].
  - intros Hid. unfold DeviceByID. rewrite find_id_by, Hrecv, find_by_app.
    rewrite (proj2 (find_by_none deviceID (devices c) (sr_DeviceID p) 0) Hid).
    cbn [find_by handler_step Payload fst deviceID].
    rewrite String.eqb_refl. reflexivity.
Qed.

(** A scan response as a lamp at 192.168.1.23 sends it. *)
Lemma discovery_registers_payload_identity_witness :
  exists d' : Device,
    devices (receive 10 11 false NewController
               {| dg_src := "192.168.1.23";
                  dg_envelope := Some {| CMD := "scan"; Data := bytes "{}" |};
                  dg_scan := Some (mkScanResponse "192.168.1.23" "1F:80" "H6159"
                                     (NewVersion 3 1 1) (NewVersion 1 3 1)
                                     (NewVersion 1 0 10) (NewVersion 1 2 3));
                  dg_status := None |})
      = devices NewController ++ [d'] /\
    deviceID d' = "1F:80"%string.
Proof.
  destruct (discovery_registers_payload_identity 10 11 false NewController
              {| dg_src := "192.168.1.23";
                 dg_envelope := Some {| CMD := "scan"; Data := bytes "{}" |};
                 dg_scan := Some (mkScanResponse "192.168.1.23" "1F:80" "H6159"
                                    (NewVersion 3 1 1) (NewVersion 1 3 1)
                                    (NewVersion 1 0 10) (NewVersion 1 2 3));
                 dg_status := None |}
              {| CMD := "scan"; Data := bytes "{}" |}
              (mkScanResponse "192.168.1.23" "1F:80" "H6159"
                 (NewVersion 3 1 1) (NewVersion 1 3 1)
                 (NewVersion 1 0 10) (NewVersion 1 2 3))
              eq_refl eq_refl eq_refl eq_refl)
    as (d' & Hdev & Hid & _).
  exists d'. split; [exact Hdev |].
  unfold identity_of in Hid. inversion Hid. reflexivity.
Defined.

(** X21: a status response from a registered address changes, once the
    worker has applied it, only the device registered for that address:
    its light state becomes the payload's and its last-seen time the
    worker's clock, its identity stays, and every other entry of the
    registry, like the registry's length, is untouched. *)
Theorem status_updates_only_sender :
  forall (now now' : time) (parked : bool) (c : Controller) (dg : Datagram)
         (w : wrapper) (p : devStatusResponse) (i : nat),
  dg_envelope dg = Some w -> CMD w = "devStatus"%string ->
  dg_status dg = Some p ->
  DeviceByIP c (dg_src dg) = (Some i, None) ->
  List.length (devices (receive now now' parked c dg)) = List.length (devices c) /\
  (exists d d',
     nth_error (devices c) i = Some d /\
     nth_error (devices (receive now now' parked c dg)) i = Some d' /\
     light_of d' = (ds_OnOff p, ds_Brightness p, ds_Color p, ds_ColorKelvin p) /\
     seen d' = now /\ identity_of d' = identity_of d) /\
  (forall j, j <> i ->
     nth_error (devices (receive now now' parked c dg)) j
       = nth_error (devices c) j).
Proof.
  intros now now' parked c dg w p i Henv Hcmd Hstatus Hfound.
  assert (Hfind : find_by ip (devices c) (dg_src dg) 0 = Some i).
  { unfold DeviceByIP in Hfound. rewrite find_ip_by in Hfound.
    destruct (find_by ip (devices c) (dg_src dg) 0); [| discriminate].
    inversion Hfound. reflexivity. }
  assert (Hrecv : devices (receive now now' parked c dg) =
                  update_nth i
                    (fun d => fst (handler_step now now' parked d
                                     {| IP := dg_src dg; Payload := PStatus p |}))
                    (devices c)).
  { unfold receive. rewrite listener_routed, Henv, Hcmd, Hstatus, Hfind.
    cbn [String.eqb Ascii.eqb Bool.eqb]. cbv zeta. unfold worker_apply. cbn [fst snd devices].
    rewrite listener_registry, Hfind, app_nil_r. reflexivity. }
  rewrite Hrecv. split; [apply update_nth_length |]. split.
  - apply find_by_some in Hfind. destruct Hfind as (_ & (d & Hd & _) & _).
    rewrite Nat.sub_0_r in Hd.
    exists d. eexists. split; [exact Hd |].
    split; [apply update_nth_same; exact Hd |].
    unfold handler_step. cbn [Payload].
    destruct parked; [repeat split |].
    destruct (List.length (statusUpdate d) <? statusUpdate_cap)%nat; repeat split.
  - intros j Hj. apply update_nth_other. congruence.
Qed.

Lemma status_updates_only_sender_witness :
  List.length (devices (receive 10 11 false {| devices := [lamp 0] |}
                 {| dg_src := "192.168.1.23";
                    dg_envelope := Some {| CMD := "devStatus"; Data := bytes "{}" |};
                    dg_scan := None; dg_status := Some status_on |}))
    = List.length (devices {| devices := [lamp 0] |}).
Proof.
  apply (proj1 (status_updates_only_sender 10 11 false {| devices := [lamp 0] |}
                  {| dg_src := "192.168.1.23";
                     dg_envelope := Some {| CMD := "devStatus"; Data := bytes "{}" |};
                     dg_scan := None; dg_status := Some status_on |}
                  {| CMD := "devStatus"; Data := bytes "{}" |} status_on 0%nat
                  eq_refl eq_refl eq_refl eq_refl)).
Defined.
